(** * uav_control: offboard translation controller and command dispatcher

    A shallow embedding of
      - open_loop_control/src/translation_control.py
      - communication_pipeline/src/dispatcher.py
    and the properties of the controller that can be stated over it.

    Conventions of the embedding.
      - Python floats are modelled as real numbers ([R]); rounding, infinities
        and NaN are outside the model.
      - A Python list or numpy array of floats is a [list R]; a 4x4 numpy
        matrix is a list of rows.
      - A Python exception is a value of type [exn]; a pure computation that
        may raise returns a [result].
      - The wall clock, the ROS shutdown flag and the mode messages delivered
        while a callback is running form an explicit [world] that the
        stateful code consumes. *)

From Stdlib Require Import String Reals Lra Lia Bool Arith List.
From Stdlib Require Import Ranalysis RiemannInt.
Import ListNotations.

Local Open Scope string_scope.
Local Open Scope list_scope.
Local Open Scope R_scope.

(** ** Python-level values, exceptions and results *)

Inductive exn : Type :=
| AttributeError (msg : string)
| NameError (msg : string)
| TypeError (msg : string)
| ValueError (msg : string)
| IndexError (msg : string)
| ZeroDivisionError (msg : string).

Inductive result (A : Type) : Type :=
| Ok (a : A)
| Raise (e : exn).

Arguments Ok {A} a.
Arguments Raise {A} e.

Definition rbind {A B : Type} (r : result A) (k : A -> result B) : result B :=
  match r with
  | Ok a => k a
  | Raise e => Raise e
  end.

Notation "'let?' x ':=' r 'in' k" := (rbind r (fun x => k))
  (at level 10, x name, r at level 100, k at level 200).

Definition vector : Type := list R.
Definition matrix : Type := list (list R).

(** Boolean tests on reals, as the interpreter evaluates [a < b] and
    [a > b] on floats. *)
Definition ltb (a b : R) : bool := if Rlt_dec a b then true else false.
Definition gtb (a b : R) : bool := ltb b a.

(** ** numpy and tf.transformations primitives

    These functions belong to external libraries (numpy, tf); they are
    written here as the libraries define them, over the reals. *)

Module np.

Fixpoint inner (u v : vector) : R :=
  match u, v with
  | a :: u', b :: v' => a * b + inner u' v'
  | _, _ => 0
  end.

(** [np.dot(M, v)] for a 2-d [M] and a 1-d [v]: the shapes must agree. *)
Definition dot (M : matrix) (v : vector) : result vector :=
  if forallb (fun row => Nat.eqb (length row) (length v)) M
  then Ok (map (fun row => inner row v) M)
  else Raise (ValueError "shapes not aligned").

Definition column (j : nat) (M : matrix) : vector :=
  map (fun row => nth j row 0) M.

(** [M.T] *)
Definition T (M : matrix) : matrix :=
  map (fun j => column j M) (seq 0 (length (hd [] M))).

Definition matmul (A B : matrix) : matrix :=
  map (fun row => map (inner row) (T B)) A.

(** [np.linalg.norm] of a 1-d array. *)
Definition linalg_norm (v : vector) : R := sqrt (inner v v).

Definition pi : R := PI.

End np.

Module tft.

Definition identity_matrix : matrix :=
  [[1; 0; 0; 0];
   [0; 1; 0; 0];
   [0; 0; 1; 0];
   [0; 0; 0; 1]].

(** [concatenate_matrices] of a list of matrices: the product, left to right,
    starting from the identity. *)
Definition concatenate_matrices (Ms : list matrix) : matrix :=
  fold_left np.matmul Ms identity_matrix.

(** [rotation_matrix(angle, direction)] with no [point]:
    Rodrigues' formula about the normalised direction. *)
Definition rotation_matrix (angle : R) (direction : R * R * R) : matrix :=
  let '(dx, dy, dz) := direction in
  let n := sqrt (dx * dx + dy * dy + dz * dz) in
  let ux := dx / n in
  let uy := dy / n in
  let uz := dz / n in
  let sina := sin angle in
  let cosa := cos angle in
  [[cosa + ux * ux * (1 - cosa); ux * uy * (1 - cosa) - sina * uz;
      ux * uz * (1 - cosa) + sina * uy; 0];
   [uy * ux * (1 - cosa) + sina * uz; cosa + uy * uy * (1 - cosa);
      uy * uz * (1 - cosa) - sina * ux; 0];
   [uz * ux * (1 - cosa) - sina * uy; uz * uy * (1 - cosa) + sina * ux;
      cosa + uz * uz * (1 - cosa); 0];
   [0; 0; 0; 1]].

(** [_EPS = numpy.finfo(float).eps * 4.0] *)
Definition _EPS : R := / 2 ^ 52 * 4.

(** [quaternion_matrix(quaternion)], quaternion given as (x, y, z, w).
    The argument is subscripted first ([quaternion[:4]]), which raises
    [TypeError] on [None]. *)
Definition quaternion_matrix (quaternion : option (list R)) : result matrix :=
  match quaternion with
  | None => Raise (TypeError "'NoneType' object is not subscriptable")
  | Some ql =>
      let q := firstn 4 ql in
      let nq := np.inner q q in
      if ltb nq _EPS then Ok identity_matrix
      else
        match map (fun c => c * sqrt (2 / nq)) q with
        | [q0; q1; q2; q3] =>
            Ok [[1 - q1 * q1 - q2 * q2; q0 * q1 - q2 * q3; q0 * q2 + q1 * q3; 0];
                [q0 * q1 + q2 * q3; 1 - q0 * q0 - q2 * q2; q1 * q2 - q0 * q3; 0];
                [q0 * q2 - q1 * q3; q1 * q2 + q0 * q3; 1 - q0 * q0 - q1 * q1; 0];
                [0; 0; 0; 1]]
        | _ => Raise (IndexError "index out of bounds")
        end
  end.

End tft.

(** ** Constants *)

Module Constants.
Definition RATE : R := 10.
Definition MAX_DISTANCE : R := 2.
Definition MAX_SPEED : R := 5 / 10.
Definition MIN_SPEED : R := 1 / 100.
End Constants.

(** ** StaticTransforms *)

Module StaticTransforms.

Definition R_lenu2lned : matrix := tft.rotation_matrix np.pi (1, 0, 0).
Definition R_bu2bd : matrix := tft.rotation_matrix np.pi (1, 0, 0).
Definition R_dc2bd : matrix := tft.identity_matrix.
Definition R_fc2bd : matrix :=
  [[0; 0; 1; 0];
   [1; 0; 0; 0];
   [0; 1; 0; 0];
   [0; 0; 0; 1]].

Definition R_lned2lenu : matrix := np.T R_lenu2lned.
Definition R_bd2bu : matrix := np.T R_bu2bd.
Definition R_bd2dc : matrix := np.T R_dc2bd.
Definition R_bd2fc : matrix := np.T R_fc2bd.

Definition R_dc2fc : matrix := tft.concatenate_matrices [R_bd2fc; R_dc2bd].
Definition R_fc2dc : matrix := np.T R_dc2fc.
Definition R_dc2bu : matrix := tft.concatenate_matrices [R_bd2bu; R_dc2bd].
Definition R_bu2dc : matrix := np.T R_dc2bu.
Definition R_fc2bu : matrix := tft.concatenate_matrices [R_bd2bu; R_fc2bd].
Definition R_bu2fc : matrix := np.T R_fc2bu.

(** The class attributes whose name starts with [R_], in definition
    order.  The remaining class attributes ([__init__],
    [coord_transform], ...) never match a name built by
    [coord_transform], which always starts with [R_]. *)
Definition class_attributes : list (string * matrix) :=
  [("R_lenu2lned", R_lenu2lned); ("R_bu2bd", R_bu2bd);
   ("R_dc2bd", R_dc2bd); ("R_fc2bd", R_fc2bd);
   ("R_lned2lenu", R_lned2lenu); ("R_bd2bu", R_bd2bu);
   ("R_bd2dc", R_bd2dc); ("R_bd2fc", R_bd2fc);
   ("R_dc2fc", R_dc2fc); ("R_fc2dc", R_fc2dc);
   ("R_dc2bu", R_dc2bu); ("R_bu2dc", R_bu2dc);
   ("R_fc2bu", R_fc2bu); ("R_bu2fc", R_bu2fc)].

Fixpoint lookup {V : Type} (name : string) (d : list (string * V)) : option V :=
  match d with
  | [] => None
  | (k, v) :: d' => if String.eqb k name then Some v else lookup name d'
  end.

(** ['R_{}2{}'.format(fin, fout)] *)
Definition R_str (fin fout : string) : string :=
  String.append "R_" (String.append fin (String.append "2" fout)).

Definition no_transform_message (fin fout : string) : string :=
  String.append
    (String.append "No static transform exists from "
       (String.append fin (String.append " to " (String.append fout "."))))
    " Are you sure these frames are not moving relative to each other?".

Definition coord_transform (v__fin : vector) (fin fout : string) : result vector :=
  if String.eqb fin fout then
    let v4__fin := v__fin ++ [0] in
    let R := tft.identity_matrix in
    let? v4__fout := np.dot R v4__fin in
    Ok (firstn 3 v4__fout)
  else
    match lookup (R_str fin fout) class_attributes with
    | None => Raise (AttributeError (no_transform_message fin fout))
    | Some R_i2o =>
        let v4__fin := v__fin ++ [0] in
        let? v4__fout := np.dot R_i2o v4__fin in
        Ok (firstn 3 v4__fout)
    end.

End StaticTransforms.

(** ** get_lenu_velocity *)

Definition get_lenu_velocity (q_bu_lenu : option (list R)) (v__fin : vector)
    (fin : string) : result vector :=
  let? v__lenu :=
    if String.eqb fin "lenu" then Ok v__fin
    else if String.eqb fin "lned" then
      StaticTransforms.coord_transform v__fin "lned" "lenu"
    else
      let? R_bu2lenu := tft.quaternion_matrix q_bu_lenu in
      let? v__bu := StaticTransforms.coord_transform v__fin fin "bu" in
      np.dot R_bu2lenu (v__bu ++ [0])
  in
  Ok (firstn 3 v__lenu).

(** ** ROS message types *)

Module geometry_msgs.

Record Vector3 : Type := mkVector3 { x : R; y : R; z : R }.
Record Quaternion : Type := mkQuaternion { qx : R; qy : R; qz : R; qw : R }.
Record Twist : Type := mkTwist { linear : Vector3; angular : Vector3 }.

(** [Twist()]: every field is zero. *)
Definition new_Twist : Twist := mkTwist (mkVector3 0 0 0) (mkVector3 0 0 0).

Definition set_linear_x (t : Twist) (v : R) : Twist :=
  mkTwist (mkVector3 v (y (linear t)) (z (linear t))) (angular t).
Definition set_linear_y (t : Twist) (v : R) : Twist :=
  mkTwist (mkVector3 (x (linear t)) v (z (linear t))) (angular t).
Definition set_linear_z (t : Twist) (v : R) : Twist :=
  mkTwist (mkVector3 (x (linear t)) (y (linear t)) v) (angular t).

End geometry_msgs.

Module mavros_msgs.

Record State : Type :=
  mkState { connected : bool; armed : bool; guided : bool; mode : string }.

(** [State()] *)
Definition new_State : State := mkState false false false "".

End mavros_msgs.

Import geometry_msgs mavros_msgs.

(** ** Maneuver objects

    A maneuver is an instance of one of three classes; its attributes are
    the entries that [__init__] stores in the instance dictionary. *)

Inductive pyval : Type :=
| VFloat (r : R)
| VStr (s : string)
| VList (l : vector)
| VFunc (f : R -> result vector).

Inductive maneuver_class : Type := s_man_class | line_man_class | par_man_class.

Definition class_name (k : maneuver_class) : string :=
  match k with
  | s_man_class => "s_man"
  | line_man_class => "line_man"
  | par_man_class => "par_man"
  end.

Record instance : Type := mkInstance { class_of : maneuver_class; dict : list (string * pyval) }.

Definition no_attribute_message (k : maneuver_class) (name : string) : string :=
  String.append (class_name k)
    (String.append " instance has no attribute '" (String.append name "'")).

Definition getattr (self : instance) (name : string) : result pyval :=
  match StaticTransforms.lookup name (dict self) with
  | Some v => Ok v
  | None => Raise (AttributeError (no_attribute_message (class_of self) name))
  end.

Definition as_float (v : pyval) : result R :=
  match v with VFloat r => Ok r | _ => Raise (TypeError "a float is required") end.
Definition as_str (v : pyval) : result string :=
  match v with VStr s => Ok s | _ => Raise (TypeError "a string is required") end.
Definition as_list (v : pyval) : result vector :=
  match v with VList l => Ok l | _ => Raise (TypeError "a sequence is required") end.
Definition as_func (v : pyval) : result (R -> result vector) :=
  match v with VFunc f => Ok f | _ => Raise (TypeError "object is not callable") end.

(** [vel[i]] *)
Definition index (v : vector) (i : nat) : result R :=
  match nth_error v i with
  | Some r => Ok r
  | None => Raise (IndexError "index out of bounds")
  end.

(** [s_man.__init__] *)
Definition s_man (vel_set : vector) (dur : R) (ref : string) : instance :=
  mkInstance s_man_class
    [("vel_set", VList vel_set); ("ref", VStr ref); ("dur", VFloat dur)].

(** The closure [parametric] of [line_man.__init__]: one velocity component
    per displacement component; the division raises when [dur**3] is zero. *)
Fixpoint parametric (disp : vector) (dur : R) (t : R) : result vector :=
  match disp with
  | [] => Ok []
  | disp_var :: rest =>
      if Req_dec_T (dur ^ 3) 0
      then Raise (ZeroDivisionError "float division by zero")
      else
        let c := -6 * disp_var / dur ^ 3 * (t * (t - dur)) in
        let? toRet := parametric rest dur t in
        Ok (c :: toRet)
  end.

(** The smooth-line profile as the specification words it: the velocity
    along an axis with displacement [d], at elapsed time [t]. *)
Definition closed_form (d dur t : R) : R := -6 * d / dur ^ 3 * (t * (t - dur)).

(** A primitive of [closed_form d dur]. *)
Definition primitive_of (d dur t : R) : R :=
  -6 * d / dur ^ 3 * (/ 3 * t ^ 3 - dur / 2 * t ^ 2).

(** [line_man.__init__] *)
Definition line_man (disp : vector) (dur : R) (ref : string) : instance :=
  mkInstance line_man_class
    [("disp", VList disp); ("ref", VStr ref); ("dur", VFloat dur);
     ("f", VFunc (parametric disp dur))].

(** [par_man.__init__]: stores [f], [ref] and [domain]. *)
Definition par_man (vel_func : R -> result vector) (domain : R) (ref : string) : instance :=
  mkInstance par_man_class
    [("f", VFunc vel_func); ("ref", VStr ref); ("domain", VFloat domain)].

(** ** The controller, its environment and the execution monad *)

Record TranslationController : Type := mkController {
  vel_setpoint_bu_lenu__lenu : Twist;
  current_state : State;
  prev_state : State;
  q_bu_lenu : option (list R);
  offboard_point_streaming : bool;
  (** [None] until the attribute is first assigned by
      [start_streaming_offboard_points]. *)
  offboard_point_streaming_thread : option unit;
  maneuvers : list instance
}.

(** [TranslationController.__init__] *)
Definition new_TranslationController (maneuvers : list instance) : TranslationController :=
  mkController new_Twist new_State new_State None false None maneuvers.

(** Messages handled by other threads while a callback is running. *)
Inductive message : Type :=
| StateMsg (s : State)
| PoseMsg (q : Quaternion).

(** What the environment did between two samples of a maneuver: whether
    ROS began to shut down, and which messages were delivered. *)
Record boundary : Type := mkBoundary { goes_down : bool; delivered : list message }.

(** The environment: the future readings of [time()], in call order;
    [rospy.is_shutdown()]; the future sample boundaries (none left means
    that nothing happens any more). *)
Record world : Type := mkWorld { clock : list R; down : bool; boundaries : list boundary }.

(** Ghost record of what the code did to the setpoint slot and to the
    mode pair. *)
Inductive event : Type :=
| Reset
| Wrote (man : instance) (vel : vector)
| ModeUpdate (s : State).

Record cfg : Type := mkCfg { self : TranslationController; env : world; log : list event }.

(** A run either returns, raises a Python exception, or starves: the
    environment has no clock reading left. *)
Inductive reply (A : Type) : Type :=
| Return (a : A)
| Throw (e : exn)
| Starved.

Arguments Return {A} a.
Arguments Throw {A} e.
Arguments Starved {A}.

Definition M (A : Type) : Type := cfg -> reply A * cfg.

Definition ret {A : Type} (a : A) : M A := fun c => (Return a, c).

Definition bind {A B : Type} (m : M A) (k : A -> M B) : M B :=
  fun c =>
    match m c with
    | (Return a, c') => k a c'
    | (Throw e, c') => (Throw e, c')
    | (Starved, c') => (Starved, c')
    end.

Definition lift {A : Type} (r : result A) : M A :=
  fun c => match r with Ok a => (Return a, c) | Raise e => (Throw e, c) end.

Notation "x <- m ;; k" := (bind m (fun x => k))
  (at level 61, m at next level, right associativity).
Notation "m ;; k" := (bind m (fun _ => k))
  (at level 61, right associativity).

Definition gets {A : Type} (f : TranslationController -> A) : M A :=
  fun c => (Return (f (self c)), c).

Definition modify (f : TranslationController -> TranslationController) : M unit :=
  fun c => (Return tt, mkCfg (f (self c)) (env c) (log c)).

Definition record (e : event) : M unit :=
  fun c => (Return tt, mkCfg (self c) (env c) (log c ++ [e])).

Definition set_vel_setpoint (t : Twist) (s : TranslationController) : TranslationController :=
  mkController t (current_state s) (prev_state s) (q_bu_lenu s)
    (offboard_point_streaming s) (offboard_point_streaming_thread s) (maneuvers s).

Definition set_states (cur prev : State) (s : TranslationController) : TranslationController :=
  mkController (vel_setpoint_bu_lenu__lenu s) cur prev (q_bu_lenu s)
    (offboard_point_streaming s) (offboard_point_streaming_thread s) (maneuvers s).

Definition set_q_bu_lenu (q : option (list R)) (s : TranslationController) : TranslationController :=
  mkController (vel_setpoint_bu_lenu__lenu s) (current_state s) (prev_state s) q
    (offboard_point_streaming s) (offboard_point_streaming_thread s) (maneuvers s).

Definition set_streaming (b : bool) (th : option unit) (s : TranslationController)
    : TranslationController :=
  mkController (vel_setpoint_bu_lenu__lenu s) (current_state s) (prev_state s) (q_bu_lenu s)
    b th (maneuvers s).

(** [time()] *)
Definition time : M R :=
  fun c =>
    match clock (env c) with
    | [] => (Starved, c)
    | t :: rest => (Return t, mkCfg (self c) (mkWorld rest (down (env c)) (boundaries (env c))) (log c))
    end.

(** [TIMER.sleep()]: blocks and, on the wall clock, returns normally; the
    time that passes shows in the next reading of the clock. *)
Definition sleep : M unit := ret tt.

(** [rospy.is_shutdown()] *)
Definition is_shutdown : M bool := fun c => (Return (down (env c)), c).

(** Lines 273-274 of [state_cb]: snapshot the current state, then replace it. *)
Definition update_states (msg : State) : M unit :=
  cur <- gets current_state ;;
  modify (set_states msg cur) ;;
  record (ModeUpdate msg).

(** [pose_sub_cb] *)
Definition pose_sub_cb (q : Quaternion) : M unit :=
  modify (set_q_bu_lenu (Some [qx q; qy q; qz q; qw q])).

(** The effect, on the fields that maneuver execution reads, of a message
    handled by another thread. *)
Definition deliver (m : message) : M unit :=
  match m with
  | StateMsg s => update_states s
  | PoseMsg q => pose_sub_cb q
  end.

Fixpoint deliver_all (ms : list message) : M unit :=
  match ms with
  | [] => ret tt
  | m :: ms' => deliver m ;; deliver_all ms'
  end.

(** The environment acts between the write of a sample and the test that
    follows it. *)
Definition sample_boundary : M unit :=
  fun c =>
    match boundaries (env c) with
    | [] => (Return tt, c)
    | b :: bs =>
        deliver_all (delivered b)
          (mkCfg (self c)
             (mkWorld (clock (env c)) (down (env c) || goes_down b) bs) (log c))
    end.

(** ** Iterating a maneuver

    [__iter__] of the three classes is a generator function.  A generator
    is either not started yet, suspended at its [yield] (holding
    [start_time]), or finished. *)

Inductive generator : Type :=
| Created
| Suspended (start_time : R)
| Finished.

(** The head of the [while] loop and the [yield] that follows it.

    [s_man] and [line_man]:  [while time() - start_time < self.dur]
    [par_man]:               [while time() - start_time < self.dur]
    (the same attribute, which [par_man.__init__] does not assign). *)
Definition loop_head (man : instance) (start_time : R) : M (option vector * generator) :=
  now <- time ;;
  dur <- lift (let? d := getattr man "dur" in as_float d) ;;
  if ltb (now - start_time) dur then
    match class_of man with
    | s_man_class =>
        vel_set <- lift (let? v := getattr man "vel_set" in as_list v) ;;
        ret (Some vel_set, Suspended start_time)
    | line_man_class | par_man_class =>
        f <- lift (let? v := getattr man "f" in as_func v) ;;
        t <- time ;;
        vel <- lift (f (t - start_time)) ;;
        ret (Some vel, Suspended start_time)
    end
  else ret (None, Finished).

(** [next(generator)]: [None] stands for [StopIteration]. *)
Definition next (man : instance) (g : generator) : M (option vector * generator) :=
  match g with
  | Created =>
      (* TIMER = rospy.Rate(Constants.RATE) *)
      start_time <- time ;;
      loop_head man start_time
  | Suspended start_time =>
      sleep ;;
      loop_head man start_time
  | Finished => ret (None, Finished)
  end.

(** ** execute_maneuver *)

Inductive flow : Type :=
| Continue (g : generator)
| Break
| Stop.

Definition reset_setpoint : M unit :=
  modify (set_vel_setpoint new_Twist) ;; record Reset.

(** Lines 198-202: replace the slot by a fresh [Twist], transform the
    sample [vel] to local ENU and store its three components. *)
Definition write_sample (man : instance) (vel : vector) : M unit :=
  reset_setpoint ;;
  q <- gets q_bu_lenu ;;
  ref <- lift (let? v := getattr man "ref" in as_str v) ;;
  vel <- lift (get_lenu_velocity q vel ref) ;;
  v0 <- lift (index vel 0) ;;
  modify (fun s => set_vel_setpoint (set_linear_x (vel_setpoint_bu_lenu__lenu s) v0) s) ;;
  v1 <- lift (index vel 1) ;;
  modify (fun s => set_vel_setpoint (set_linear_y (vel_setpoint_bu_lenu__lenu s) v1) s) ;;
  v2 <- lift (index vel 2) ;;
  modify (fun s => set_vel_setpoint (set_linear_z (vel_setpoint_bu_lenu__lenu s) v2) s) ;;
  record (Wrote man vel).

(** Line 204: [if rospy.is_shutdown() or self.current_state.mode != 'OFFBOARD': break] *)
Definition abort_test (g' : generator) : M flow :=
  shutting_down <- is_shutdown ;;
  cur <- gets current_state ;;
  if shutting_down || negb (String.eqb (mode cur) "OFFBOARD")
  then ret Break
  else ret (Continue g').

(** The body of [for vel in man: ...] for the sample [vel] just yielded by
    the generator, which is now in state [g']. *)
Definition loop_body (man : instance) (vel : vector) (g' : generator) : M flow :=
  write_sample man vel ;;
  sample_boundary ;;
  abort_test g'.

(** One turn of the loop: pull a sample, then run the body on it. *)
Definition iteration (man : instance) (g : generator) : M flow :=
  r <- next man g ;;
  match r with
  | (None, _) => ret Stop
  | (Some vel, g') => loop_body man vel g'
  end.

Fixpoint for_loop (fuel : nat) (man : instance) (g : generator) : M unit :=
  match fuel with
  | O => fun c => (Starved, c)
  | S fuel' =>
      fl <- iteration man g ;;
      match fl with
      | Continue g' => for_loop fuel' man g'
      | Break | Stop => ret tt
      end
  end.

(** Every turn of the loop that continues has read the clock, so the loop
    cannot take more turns than there are readings left. *)
Definition execute_maneuver (man : instance) : M unit :=
  fun c =>
    (for_loop (S (length (clock (env c)))) man Created ;;
     (* at end of maneuver, set setpoint back to zero *)
     reset_setpoint) c.

Definition hover : M unit := reset_setpoint.

(** [for man in self.maneuvers: self.execute_maneuver(man)] *)
Fixpoint execute_all (mans : list instance) : M unit :=
  match mans with
  | [] => ret tt
  | man :: rest => execute_maneuver man ;; execute_all rest
  end.

(** ** Streaming

    [run_streaming] runs on a thread of its own.  The body of its loop is
    [publish_limited]; the loop itself is given, tick by tick, what it reads
    from the shared fields. *)

(** Names bound at module level in translation_control.py (the last four
    only when run as a script). *)
Definition module_globals : list string :=
  ["rospy"; "threading"; "mavros"; "math"; "np"; "tft"; "deepcopy"; "State";
   "Twist"; "PoseStamped"; "time"; "Constants"; "StaticTransforms";
   "get_lenu_velocity"; "TranslationController"; "s_man"; "line_man";
   "par_man"; "lincoln_path"; "moustache"; "MANEUVERS"; "controller"].

(** Names bound in [run_streaming] and in the function enclosing it. *)
Definition run_streaming_locals : list string :=
  ["velsp_limited"; "speed"; "self"; "run_streaming"].

Definition name_error_message (name : string) : string :=
  String.append "global name '" (String.append name "' is not defined").

(** Loading a name that is used as a float.  No local or module-level name
    of this file is bound to a number, so a name that resolves is of the
    wrong type for arithmetic, and a name that does not resolve raises
    [NameError]. *)
Definition load_float (name : string) : result R :=
  if existsb (String.eqb name) (run_streaming_locals ++ module_globals)
  then Raise (TypeError "unsupported operand type(s) for /")
  else Raise (NameError (name_error_message name)).

(** Lines 230-240: the message published for a snapshot of the slot. *)
Definition publish_limited (slot : Twist) : result Twist :=
  let velsp_limited := slot in
  let speed := np.linalg_norm [x (linear velsp_limited);
                               y (linear velsp_limited);
                               z (linear velsp_limited)] in
  if gtb speed Constants.MAX_SPEED then
    let? m := load_float "MAX_SPEED" in
    let velsp_limited := set_linear_x velsp_limited (x (linear velsp_limited) * (m / speed)) in
    let? m := load_float "MAX_SPEED" in
    let velsp_limited := set_linear_y velsp_limited (y (linear velsp_limited) * (m / speed)) in
    let? m := load_float "MAX_SPEED" in
    let velsp_limited := set_linear_z velsp_limited (z (linear velsp_limited) * (m / speed)) in
    Ok velsp_limited
  else Ok velsp_limited.

(** The speed that [run_streaming] computes for a slot. *)
Definition slot_speed (t : Twist) : R :=
  np.linalg_norm [x (linear t); y (linear t); z (linear t)].

(** What one turn of the streaming loop reads from the shared state. *)
Record tick : Type := mkTick {
  tick_shutdown : bool;
  tick_streaming : bool;
  tick_slot : option Twist
}.

Inductive thread_end : Type :=
| Running
| Exited
| Died (e : exn).

(** The loop of [run_streaming] over the ticks observed so far: the
    messages published, and how the thread stands. *)
Fixpoint run_streaming (ticks : list tick) : list Twist * thread_end :=
  match ticks with
  | [] => ([], Running)
  | t :: rest =>
      if negb (tick_shutdown t) && tick_streaming t then
        match tick_slot t with
        | Some slot =>
            match publish_limited slot with
            | Ok msg => let (out, e) := run_streaming rest in (msg :: out, e)
            | Raise e => ([], Died e)
            end
        | None => run_streaming rest
        end
      else ([], Exited)
  end.

Definition start_streaming_offboard_points : M unit :=
  modify (set_streaming true (Some tt)).

(** [join()] raises [AttributeError] when the thread attribute was never
    assigned; the handler discards it. *)
Definition stop_streaming_offboard_points : M unit :=
  th <- gets offboard_point_streaming_thread ;;
  modify (set_streaming false th).

(** ** state_cb *)

Definition when (b : bool) (m : M unit) : M unit := if b then m else ret tt.

Definition state_cb (msg : State) : M unit :=
  update_states msg ;;
  (cur <- gets current_state ;;
   when (String.eqb (mode cur) "MANUAL")
     (streaming <- gets offboard_point_streaming ;;
      when streaming stop_streaming_offboard_points)) ;;
  (cur <- gets current_state ;;
   when (String.eqb (mode cur) "POSCTL")
     ((streaming <- gets offboard_point_streaming ;;
       when (negb streaming) start_streaming_offboard_points) ;;
      (prev <- gets prev_state ;;
       when (negb (String.eqb (mode prev) "POSCTL")) hover))) ;;
  (cur <- gets current_state ;;
   when (String.eqb (mode cur) "OFFBOARD")
     (prev <- gets prev_state ;;
      when (negb (String.eqb (mode prev) "OFFBOARD"))
        (mans <- gets maneuvers ;;
         execute_all mans))).

(** A sequence of mode messages, each handled by [state_cb].  An exception
    raised by a callback ends that callback only. *)
Definition run_callbacks (msgs : list State) (c : cfg) : cfg :=
  fold_left (fun c msg => snd (state_cb msg c)) msgs c.

(** ** The command dispatcher (dispatcher.py) *)

Module Dispatcher.

Definition _VELOCITY_COMMAND_LIMIT : R := 9 / 100.

Record Dispatcher : Type := mkDispatcher { landed : option bool }.

(** Returns the dispatcher afterwards and the messages published. *)
Definition velocity_command_callback (self : Dispatcher) (msg : Twist)
    : Dispatcher * list Twist :=
  let vel_cmd_limited := new_Twist in
  let vel_cmd_limited :=
    if gtb (x (linear msg)) _VELOCITY_COMMAND_LIMIT then
      set_linear_x vel_cmd_limited _VELOCITY_COMMAND_LIMIT
    else if ltb (x (linear msg)) (- _VELOCITY_COMMAND_LIMIT) then
      set_linear_x vel_cmd_limited (- _VELOCITY_COMMAND_LIMIT)
    else
      set_linear_x vel_cmd_limited (x (linear msg)) in
  let vel_cmd_limited := set_linear_y vel_cmd_limited 0 in
  let vel_cmd_limited := set_linear_z vel_cmd_limited 0 in
  (self, [vel_cmd_limited]).

(** [ExtendedState] constants of mavros_msgs. *)
Definition LANDED_STATE_UNDEFINED : nat := 0.
Definition LANDED_STATE_ON_GROUND : nat := 1.

Definition extended_state_callback (self : Dispatcher) (landed_state : nat) : Dispatcher :=
  if Nat.eqb landed_state LANDED_STATE_UNDEFINED then mkDispatcher None
  else if Nat.eqb landed_state LANDED_STATE_ON_GROUND then mkDispatcher (Some true)
  else mkDispatcher (Some false).

End Dispatcher.


(** ** The main program *)

Definition lincoln_path (t : R) : result vector :=
  Ok [4 * np.pi / 25 * cos (8 * np.pi * t / 25);
      -9 * np.pi / 50 * cos (6 * np.pi * t / 25);
      0].

Definition moustache (t : R) : result vector :=
  Ok [2 * np.pi / 25 * sin (2 * np.pi * t / 25);
      2 * np.pi / 125 * (4 * sin (8 * np.pi * t / 25) - cos (2 * np.pi * t / 25));
      0].

(** Default frame of the maneuver constructors. *)
Definition default_ref : string := "fc".

Definition MANEUVERS : list instance := [par_man moustache 100 default_ref].

Definition controller : TranslationController := new_TranslationController MANEUVERS.

(** ** Vocabulary of the statements *)

Definition with_slot (t : Twist) (c : cfg) : cfg :=
  mkCfg (set_vel_setpoint t (self c)) (env c) (log c).

Definition with_clock (ts : list R) (c : cfg) : cfg :=
  mkCfg (self c) (mkWorld ts (down (env c)) (boundaries (env c))) (log c).

Definition with_log (l : list event) (c : cfg) : cfg :=
  mkCfg (self c) (env c) l.

Definition twist_of (a b c : R) : Twist := mkTwist (mkVector3 a b c) (mkVector3 0 0 0).

Definition is_wrote (e : event) : bool :=
  match e with Wrote _ _ => true | _ => false end.

(** Number of samples written to the slot in a stretch of the record. *)
Definition wrote_count (l : list event) : nat := List.length (filter is_wrote l).

(** The mode messages applied, oldest first. *)
Fixpoint applied (l : list event) : list State :=
  match l with
  | [] => []
  | ModeUpdate s :: l' => s :: applied l'
  | _ :: l' => applied l'
  end.

Definition is_state_msg (m : message) : bool :=
  match m with StateMsg _ => true | PoseMsg _ => false end.

(** No mode message is delivered at any of the boundaries to come. *)
Definition modes_settled (bs : list boundary) : bool :=
  forallb (fun b => forallb (fun m => negb (is_state_msg m)) (delivered b)) bs.

(** The condition of line 204 holds and will keep holding: ROS is shutting
    down, or the mode is not OFFBOARD and no mode message is to come. *)
Definition aborting (c : cfg) : bool :=
  down (env c)
  || (negb (String.eqb (mode (current_state (self c))) "OFFBOARD")
      && modes_settled (boundaries (env c))).

(** The mode pair agrees with the record of the mode messages applied
    since the state [s0]: [current_state] is the last value applied and
    [prev_state] the one before it ([s0] when there is none); at least [k]
    messages have been applied. *)
Definition mode_pair_ok (k : nat) (s0 : State) (c : cfg) : Prop :=
  (k <= List.length (applied (log c)))%nat /\
  match rev (applied (log c)) with
  | [] => current_state (self c) = s0
  | [m] => current_state (self c) = m /\ prev_state (self c) = s0
  | m :: p :: _ => current_state (self c) = m /\ prev_state (self c) = p
  end.

(** A step that leaves the mode pair and the record of mode messages as
    they were. *)
Definition mode_stable (c c' : cfg) : Prop :=
  current_state (self c') = current_state (self c) /\
  prev_state (self c') = prev_state (self c) /\
  applied (log c') = applied (log c).

(** A computation maintains a property of configurations, however it
    ends. *)
Definition preserves (P : cfg -> Prop) {A : Type} (m : M A) : Prop :=
  forall c, P c -> P (snd (m c)).

(** ** Scenarios *)

(** The constant maneuver of the mode-transition scenario: 0.2 m/s towards
    negative y of the (default) forward-camera frame, for five seconds. *)
Definition five_seconds_left : instance := s_man [0; - (2 / 10); 0] 5 default_ref.

Definition posctl : State := mkState true true false "POSCTL".
Definition offboard : State := mkState true true false "OFFBOARD".
Definition manual : State := mkState true true false "MANUAL".

(** A controller that has received a level attitude and is streaming in
    position hold. *)
Definition holding (mans : list instance) : TranslationController :=
  mkController new_Twist posctl new_State (Some [0; 0; 0; 1]) true (Some tt) mans.

(** A clock read at the start and then every tenth of a second, from 0 s
    to 5 s. *)
Definition five_second_clock : list R :=
  0 :: map (fun k => INR k / 10) (seq 0 50) ++ [5].

(** Two constant maneuvers given in the world frame. *)
Definition go_south : instance := s_man [0; - (2 / 10); 0] 5 "lenu".
Definition go_east : instance := s_man [2 / 10; 0; 0] 5 "lenu".

(** A constant maneuver given in the marker frame, for which the class
    holds no rotation. *)
Definition along_marker : instance := s_man [1; 0; 0] 5 "m".

(** A freshly constructed controller that has just been put in position
    hold, before any pose message. *)
Definition fresh_holding (mans : list instance) : TranslationController :=
  mkController new_Twist posctl new_State None true (Some tt) mans.

Definition short_clock : list R := [0; 0; 1 / 10; 2 / 10; 3 / 10; 6].

(** ** Vocabulary of the further properties *)

(** The frames fixed to the vehicle and the frames fixed to the world. *)
Definition body_frames : list string := ["bu"; "bd"; "dc"; "fc"].
Definition world_frames : list string := ["lenu"; "lned"].

(** What the rotations of [StaticTransforms] do to (x, y, z), pair of
    frames by pair of frames (for comparison with [coord_transform]). *)
Definition static_table (x y z : R) : list (string * string * vector) :=
  [("lenu", "lned", [x; - y; - z]); ("bu", "bd", [x; - y; - z]);
   ("dc", "bd", [x; y; z]); ("fc", "bd", [z; x; y]);
   ("lned", "lenu", [x; - y; - z]); ("bd", "bu", [x; - y; - z]);
   ("bd", "dc", [x; y; z]); ("bd", "fc", [y; z; x]);
   ("dc", "fc", [y; z; x]); ("fc", "dc", [z; x; y]);
   ("dc", "bu", [x; - y; - z]); ("bu", "dc", [x; - y; - z]);
   ("fc", "bu", [z; - x; - y]); ("bu", "fc", [- y; - z; x])].

(** The ways of cutting a string at a character 2. *)
Fixpoint split2 (s : string) : list (string * string) :=
  match s with
  | EmptyString => []
  | String ch s' =>
      (if String.eqb (String ch EmptyString) "2" then [(EmptyString, s')] else [])
      ++ map (fun p => (String ch (fst p), snd p)) (split2 s')
  end.

(** The setpoint in the slot commands no rotation. *)
Definition no_angular (c : cfg) : Prop :=
  angular (vel_setpoint_bu_lenu__lenu (self c)) = mkVector3 0 0 0.

(** ** Vocabulary of the abort statement *)



(** * Properties *)

(** ** Comparisons *)

Lemma ltb_true a b : a < b -> ltb a b = true.
Proof. intros H; unfold ltb; destruct (Rlt_dec a b); [reflexivity | contradiction]. Qed.

Lemma ltb_false a b : ~ a < b -> ltb a b = false.
Proof. intros H; unfold ltb; destruct (Rlt_dec a b); [contradiction | reflexivity]. Qed.

Lemma ltb_spec a b : reflect (a < b) (ltb a b).
Proof. unfold ltb; destruct (Rlt_dec a b); constructor; assumption. Qed.

(** ** Stepping through the execution monad *)

Lemma bind_Return {A B : Type} (m : M A) (k : A -> M B) (c c' : cfg) (a : A) :
  m c = (Return a, c') -> bind m k c = k a c'.
Proof. intros H. unfold bind. rewrite H. reflexivity. Qed.


Lemma bind_Starved {A B : Type} (m : M A) (k : A -> M B) (c c' : cfg) :
  m c = (Starved, c') -> bind m k c = (Starved, c').
Proof. intros H. unfold bind. rewrite H. reflexivity. Qed.

Lemma bind_inv_Return {A B : Type} (m : M A) (k : A -> M B) (c c2 : cfg) (b : B) :
  bind m k c = (Return b, c2) ->
  exists a c1, m c = (Return a, c1) /\ k a c1 = (Return b, c2).
Proof.
  unfold bind. destruct (m c) as [[a | e |] c1]; intros H; try discriminate.
  exists a, c1. split; [reflexivity | exact H].
Qed.

Lemma lift_inv_Return {A : Type} (r : result A) (c c' : cfg) (a : A) :
  lift r c = (Return a, c') -> r = Ok a /\ c' = c.
Proof.
  unfold lift. destruct r; intros H; inversion H. split; reflexivity.
Qed.

(** ** The static rotations, in closed form *)

Lemma rotation_matrix_pi_x :
  tft.rotation_matrix np.pi (1, 0, 0) =
  [[1; 0; 0; 0]; [0; -1; 0; 0]; [0; 0; -1; 0]; [0; 0; 0; 1]].
Proof.
  unfold tft.rotation_matrix, np.pi.
  replace (1 * 1 + 0 * 0 + 0 * 0) with 1 by ring.
  rewrite sqrt_1, cos_PI, sin_PI.
  repeat (f_equal; try lra).
Qed.

Lemma R_lned2lenu_closed :
  StaticTransforms.R_lned2lenu =
  [[1; 0; 0; 0]; [0; -1; 0; 0]; [0; 0; -1; 0]; [0; 0; 0; 1]].
Proof.
  unfold StaticTransforms.R_lned2lenu, StaticTransforms.R_lenu2lned.
  rewrite rotation_matrix_pi_x. reflexivity.
Qed.

(** ** World-frame samples need no orientation *)

(** C10. For every 3-vector [v], [get_lenu_velocity] gives the same answer
    whatever its quaternion argument is when the input frame is ['lenu']
    ([v] itself) or ['lned'] (the static lned-to-lenu rotation of [v], which
    negates the second and third components); in particular both succeed
    with the quaternion of a freshly constructed controller, which is
    [None]. *)
Theorem get_lenu_velocity_world_frames (vx vy vz : R) :
  (forall q, get_lenu_velocity q [vx; vy; vz] "lenu" = Ok [vx; vy; vz]) /\
  (forall q, get_lenu_velocity q [vx; vy; vz] "lned" =
             StaticTransforms.coord_transform [vx; vy; vz] "lned" "lenu") /\
  (forall q, get_lenu_velocity q [vx; vy; vz] "lned" = Ok [vx; - vy; - vz]) /\
  (forall mans,
      q_bu_lenu (new_TranslationController mans) = None /\
      get_lenu_velocity (q_bu_lenu (new_TranslationController mans))
        [vx; vy; vz] "lenu" = Ok [vx; vy; vz] /\
      get_lenu_velocity (q_bu_lenu (new_TranslationController mans))
        [vx; vy; vz] "lned" = Ok [vx; - vy; - vz]).
Proof.
  assert (Hned : forall q, get_lenu_velocity q [vx; vy; vz] "lned" = Ok [vx; - vy; - vz]).
  { intros q. unfold get_lenu_velocity, StaticTransforms.coord_transform.
    cbn [String.eqb Ascii.eqb Bool.eqb StaticTransforms.R_str String.append
         StaticTransforms.lookup StaticTransforms.class_attributes].
    rewrite R_lned2lenu_closed. cbn.
    repeat (f_equal; try lra). }
  split; [intros q; reflexivity|].
  split.
  { intros q. rewrite Hned.
    unfold StaticTransforms.coord_transform.
    cbn [String.eqb Ascii.eqb Bool.eqb StaticTransforms.R_str String.append
         StaticTransforms.lookup StaticTransforms.class_attributes].
    rewrite R_lned2lenu_closed. cbn.
    repeat (f_equal; try lra). }
  split; [exact Hned|].
  intros mans. split; [reflexivity|]. split; [reflexivity | apply Hned].
Qed.

(** ** The command dispatcher *)

(** C7. For every incoming velocity command and every state of the
    dispatcher, [velocity_command_callback] publishes exactly one message:
    its forward component is the input's forward component clamped to
    [-0.09, 0.09], every other component is zero; the dispatcher itself is
    left as it was, so the output does not depend on it. *)
Theorem velocity_command_callback_clamps (d : Dispatcher.Dispatcher) (msg : Twist) :
  let L := Dispatcher._VELOCITY_COMMAND_LIMIT in
  let fwd := Rmax (- L) (Rmin L (x (linear msg))) in
  L = 9 / 100 /\
  Dispatcher.velocity_command_callback d msg =
    (d, [mkTwist (mkVector3 fwd 0 0) (mkVector3 0 0 0)]) /\
  - L <= fwd <= L /\
  (forall d', snd (Dispatcher.velocity_command_callback d' msg) =
              snd (Dispatcher.velocity_command_callback d msg)).
Proof.
  intros L fwd. split; [reflexivity|].
  assert (HL : 0 < L) by (unfold L, Dispatcher._VELOCITY_COMMAND_LIMIT; lra).
  split; [|split; [|reflexivity]].
  - unfold Dispatcher.velocity_command_callback, gtb, fwd. fold L.
    destruct (ltb_spec L (x (linear msg))) as [Hhi | Hhi].
    + rewrite Rmin_left by lra. rewrite Rmax_right by lra. reflexivity.
    + rewrite Rmin_right by lra.
      destruct (ltb_spec (x (linear msg)) (- L)) as [Hlo | Hlo].
      * rewrite Rmax_left by lra. reflexivity.
      * rewrite Rmax_right by lra. reflexivity.
  - unfold fwd. split.
    + apply Rmax_l.
    + apply Rmax_lub; [lra | apply Rmin_l].
Qed.

(** ** The streaming loop *)

Lemma publish_limited_within (slot : Twist) :
  slot_speed slot <= Constants.MAX_SPEED -> publish_limited slot = Ok slot.
Proof.
  intros H. unfold publish_limited, gtb. fold (slot_speed slot).
  rewrite ltb_false by lra. reflexivity.
Qed.

Lemma publish_limited_over (slot : Twist) :
  Constants.MAX_SPEED < slot_speed slot ->
  publish_limited slot = Raise (NameError "global name 'MAX_SPEED' is not defined").
Proof.
  intros H. unfold publish_limited, gtb. fold (slot_speed slot).
  rewrite ltb_true by exact H. reflexivity.
Qed.

(** Whatever is published is the slot itself and is within the limit. *)
Lemma publish_limited_published (slot msg : Twist) :
  publish_limited slot = Ok msg ->
  msg = slot /\ slot_speed msg <= Constants.MAX_SPEED.
Proof.
  intros H.
  destruct (Rlt_dec Constants.MAX_SPEED (slot_speed slot)) as [Hover | Hin].
  - rewrite publish_limited_over in H by exact Hover. discriminate.
  - rewrite publish_limited_within in H by lra.
    injection H as <-. split; [reflexivity | lra].
Qed.

Lemma run_streaming_published (ticks : list tick) (msg : Twist) :
  In msg (fst (run_streaming ticks)) -> slot_speed msg <= Constants.MAX_SPEED.
Proof.
  induction ticks as [| t rest IH]; cbn [run_streaming]; [intros []|].
  destruct (negb (tick_shutdown t) && tick_streaming t); [|intros []].
  destruct (tick_slot t) as [slot|]; [|exact IH].
  destruct (publish_limited slot) as [out|e] eqn:Hp; [|intros []].
  destruct (run_streaming rest) as [outs e]. cbn [fst] in *.
  intros [<- | Hin]; [|exact (IH Hin)].
  apply (publish_limited_published slot out Hp).
Qed.

(** C1, at a slot vector above the limit.  With the slot holding (1, 0, 0),
    whose norm 1 exceeds [MAX_SPEED] = 0.5, the tick does not publish the
    vector scaled to norm 0.5: the scaling statement loads the name
    [MAX_SPEED], which is bound neither locally nor at module level (the
    constant is [Constants.MAX_SPEED]), so [NameError] is raised, nothing
    is published on that tick and the streaming thread ends; a later slot
    within the limit is not published either. *)
Theorem run_streaming_over_speed_raises :
  let fast := mkTwist (mkVector3 1 0 0) (mkVector3 0 0 0) in
  let slow := mkTwist (mkVector3 (1 / 10) 0 0) (mkVector3 0 0 0) in
  let err := NameError "global name 'MAX_SPEED' is not defined" in
  slot_speed fast = 1 /\
  Constants.MAX_SPEED = 5 / 10 /\
  publish_limited fast = Raise err /\
  run_streaming [mkTick false true (Some slow);
                 mkTick false true (Some fast);
                 mkTick false true (Some slow)] = ([slow], Died err).
Proof.
  intros fast slow err.
  assert (Hfast : slot_speed fast = 1).
  { unfold slot_speed, np.linalg_norm, fast. cbn.
    replace (1 * 1 + (0 * 0 + (0 * 0 + 0))) with 1 by ring. apply sqrt_1. }
  assert (Hslow : slot_speed slow = 1 / 10).
  { unfold slot_speed, np.linalg_norm, slow. cbn.
    replace (1 / 10 * (1 / 10) + (0 * 0 + (0 * 0 + 0))) with ((1 / 10) * (1 / 10)) by ring.
    apply sqrt_square. lra. }
  assert (Hpf : publish_limited fast = Raise err).
  { apply publish_limited_over. rewrite Hfast. unfold Constants.MAX_SPEED. lra. }
  assert (Hps : publish_limited slow = Ok slow).
  { apply publish_limited_within. rewrite Hslow. unfold Constants.MAX_SPEED. lra. }
  split; [exact Hfast|]. split; [reflexivity|]. split; [exact Hpf|].
  cbn [run_streaming tick_shutdown tick_streaming tick_slot negb andb].
  rewrite Hps, Hpf. reflexivity.
Qed.

(** ** Parametric maneuvers *)

(** C5, at every parametric maneuver.  [par_man.__init__] stores the domain
    length under [domain], and [__iter__] tests the elapsed time against
    [self.dur], which was never assigned: the first pull reads the clock
    twice and then raises [AttributeError] without yielding any sample, so
    [execute_maneuver] raises too, and so does [state_cb] on entering
    OFFBOARD with the list of the main program, [par_man(moustache, 100)]. *)
Theorem par_man_iteration_raises
    (vel_func : R -> result vector) (domain : R) (ref : string)
    (s : TranslationController) (t0 t1 : R) (rest : list R)
    (dn : bool) (bs : list boundary) (lg : list event) :
  let man := par_man vel_func domain ref in
  let err := AttributeError "par_man instance has no attribute 'dur'" in
  let c := mkCfg s (mkWorld (t0 :: t1 :: rest) dn bs) lg in
  let offboard := mkState true true true "OFFBOARD" in
  getattr man "domain" = Ok (VFloat domain) /\
  getattr man "dur" = Raise err /\
  next man Created c = (Throw err, mkCfg s (mkWorld rest dn bs) lg) /\
  execute_maneuver man c = (Throw err, mkCfg s (mkWorld rest dn bs) lg) /\
  state_cb offboard (mkCfg controller (mkWorld (t0 :: t1 :: rest) dn bs) lg) =
    (Throw err,
     mkCfg (set_states offboard new_State controller) (mkWorld rest dn bs)
       (lg ++ [ModeUpdate offboard])).
Proof.
  intros man err c offboard.
  split; [reflexivity|]. split; [reflexivity|].
  split; [reflexivity|]. split; reflexivity.
Qed.

(** ** Smooth-line maneuvers *)

Section SmoothLine.

Variables d dur : R.

Lemma primitive_of_lim (t : R) :
  derivable_pt_lim (primitive_of d dur) t (closed_form d dur t).
Proof.
  unfold closed_form.
  change (primitive_of d dur) with
    (mult_real_fct (-6 * d / dur ^ 3)
       (minus_fct (mult_real_fct (/ 3) (fun u => u ^ 3))
                  (mult_real_fct (dur / 2) (fun u => u ^ 2)))).
  generalize (-6 * d / dur ^ 3). intros k.
  replace (k * (t * (t - dur)))
    with (k * (/ 3 * (INR 3 * t ^ pred 3) - dur / 2 * (INR 2 * t ^ pred 2)))
    by (simpl; field).
  apply derivable_pt_lim_scal.
  apply derivable_pt_lim_minus; apply derivable_pt_lim_scal; apply derivable_pt_lim_pow.
Qed.

Lemma primitive_of_derivable : derivable (primitive_of d dur).
Proof. intros t. exists (closed_form d dur t). apply primitive_of_lim. Qed.

Lemma primitive_of_derive (t : R) :
  derive (primitive_of d dur) primitive_of_derivable t = closed_form d dur t.
Proof. unfold derive. apply derive_pt_eq_0. apply primitive_of_lim. Qed.

Lemma closed_form_continuity : continuity (closed_form d dur).
Proof.
  intros t. apply derivable_continuous_pt.
  unfold closed_form. generalize (-6 * d / dur ^ 3). intros k.
  exists (k * (2 * t - dur)).
  change (fun u => k * (u * (u - dur)))
    with (mult_real_fct k (mult_fct id (minus_fct id (fct_cte dur)))).
  replace (k * (2 * t - dur)) with (k * (1 * (t - dur) + id t * (1 - 0)))
    by (unfold id; ring).
  apply derivable_pt_lim_scal.
  apply (derivable_pt_lim_mult id (minus_fct id (fct_cte dur))).
  - apply derivable_pt_lim_id.
  - apply derivable_pt_lim_minus; [apply derivable_pt_lim_id | apply derivable_pt_lim_const].
Qed.

Lemma primitive_of_C1 : continuity (derive (primitive_of d dur) primitive_of_derivable).
Proof.
  intros t.
  pose proof (closed_form_continuity t) as Hc.
  unfold continuity_pt, continue_in, limit1_in, limit_in in *.
  intros eps Heps. destruct (Hc eps Heps) as [delta [Hd Hlim]].
  exists delta. split; [exact Hd|].
  intros u Hu. rewrite !primitive_of_derive. apply Hlim. exact Hu.
Qed.

(** The displacement is recovered by integrating the profile. *)
Lemma closed_form_integral (pr : Riemann_integrable (closed_form d dur) 0 dur) :
  0 < dur -> RiemannInt pr = d.
Proof.
  intros Hdur.
  rewrite (RiemannInt_P18 pr (RiemannInt_P32 (mkC1 primitive_of_C1) 0 dur)).
  - rewrite FTC_Riemann. cbn [c1]. unfold primitive_of. field. lra.
  - lra.
  - intros t _. symmetry. apply primitive_of_derive.
Qed.

Lemma closed_form_integrable : 0 < dur -> Riemann_integrable (closed_form d dur) 0 dur.
Proof.
  intros Hdur. apply continuity_implies_RiemannInt; [lra|].
  intros t _. apply closed_form_continuity.
Qed.

Lemma closed_form_ends : closed_form d dur 0 = 0 /\ closed_form d dur dur = 0.
Proof. unfold closed_form. split; ring. Qed.

End SmoothLine.

Lemma parametric_values (disp : vector) (dur t : R) (v : vector) :
  parametric disp dur t = Ok v -> v = map (fun d => closed_form d dur t) disp.
Proof.
  revert v. induction disp as [| d rest IH]; intros v; cbn [parametric map].
  - intros H. injection H as <-. reflexivity.
  - destruct (Req_dec_T (dur ^ 3) 0); [discriminate|].
    destruct (parametric rest dur t) as [w|e]; cbn [rbind]; [|discriminate].
    intros H. injection H as <-. rewrite (IH w eq_refl). reflexivity.
Qed.

Lemma parametric_total (disp : vector) (dur t : R) :
  dur <> 0 -> parametric disp dur t = Ok (map (fun d => closed_form d dur t) disp).
Proof.
  intros Hdur. induction disp as [| d rest IH]; cbn [parametric map]; [reflexivity|].
  destruct (Req_dec_T (dur ^ 3) 0) as [Hz | _].
  - exfalso. exact (pow_nonzero dur 3 Hdur Hz).
  - rewrite IH. reflexivity.
Qed.

Lemma loop_head_line_man_yield (disp : vector) (dur : R) (ref : string)
    (start_time : R) (c c' : cfg) (vel : vector) (g' : generator) :
  loop_head (line_man disp dur ref) start_time c = (Return (Some vel, g'), c') ->
  exists t, parametric disp dur t = Ok vel.
Proof.
  unfold loop_head. intros H.
  apply bind_inv_Return in H. destruct H as (now & c1 & _ & H).
  apply bind_inv_Return in H. destruct H as (dr & c2 & _ & H).
  destruct (ltb (now - start_time) dr); [|discriminate].
  cbn [class_of line_man] in H.
  apply bind_inv_Return in H. destruct H as (f & c3 & Hf & H).
  apply lift_inv_Return in Hf. destruct Hf as [Hf _].
  cbn in Hf. injection Hf as <-.
  apply bind_inv_Return in H. destruct H as (t & c4 & _ & H).
  apply bind_inv_Return in H. destruct H as (v & c5 & Hv & H).
  apply lift_inv_Return in Hv. destruct Hv as [Hv _].
  unfold ret in H. injection H as <- _ _.
  exists (t - start_time). exact Hv.
Qed.

Lemma next_line_man_yield (disp : vector) (dur : R) (ref : string)
    (g : generator) (c c' : cfg) (vel : vector) (g' : generator) :
  next (line_man disp dur ref) g c = (Return (Some vel, g'), c') ->
  exists t, vel = map (fun d => closed_form d dur t) disp.
Proof.
  intros H.
  assert (Hp : exists t, parametric disp dur t = Ok vel).
  { destruct g as [| start_time |]; cbn [next] in H.
    - apply bind_inv_Return in H. destruct H as (st & c1 & _ & H).
      exact (loop_head_line_man_yield _ _ _ _ _ _ _ _ H).
    - apply bind_inv_Return in H. destruct H as (u & c1 & _ & H).
      exact (loop_head_line_man_yield _ _ _ _ _ _ _ _ H).
    - discriminate. }
  destruct Hp as [t Hp]. exists t. exact (parametric_values _ _ _ _ Hp).
Qed.

(** What a pull of the generator of a smooth-line maneuver gives, reading
    by reading: the loop test uses one reading of the clock and the sample
    is the profile at the elapsed time of the next one. *)
Lemma next_line_man_suspended (disp : vector) (dur : R) (ref : string)
    (s : TranslationController) (t0 t1 t2 : R) (rest : list R)
    (dn : bool) (bs : list boundary) (lg : list event) :
  dur <> 0 ->
  next (line_man disp dur ref) (Suspended t0)
    (mkCfg s (mkWorld (t1 :: t2 :: rest) dn bs) lg) =
    if ltb (t1 - t0) dur
    then (Return (Some (map (fun d => closed_form d dur (t2 - t0)) disp), Suspended t0),
          mkCfg s (mkWorld rest dn bs) lg)
    else (Return (None, Finished), mkCfg s (mkWorld (t2 :: rest) dn bs) lg).
Proof.
  intros Hne. unfold next, loop_head, sleep, bind.
  cbn [ret time lift self env log clock down boundaries getattr line_man dict
       StaticTransforms.lookup String.eqb Ascii.eqb Bool.eqb rbind as_float
       as_func class_of].
  destruct (ltb (t1 - t0) dur); [|reflexivity].
  cbn [time self env log clock down boundaries].
  rewrite (parametric_total disp dur (t2 - t0) Hne). reflexivity.
Qed.

Lemma next_line_man_created (disp : vector) (dur : R) (ref : string)
    (s : TranslationController) (t0 t1 t2 : R) (rest : list R)
    (dn : bool) (bs : list boundary) (lg : list event) :
  dur <> 0 ->
  next (line_man disp dur ref) Created
    (mkCfg s (mkWorld (t0 :: t1 :: t2 :: rest) dn bs) lg) =
    if ltb (t1 - t0) dur
    then (Return (Some (map (fun d => closed_form d dur (t2 - t0)) disp), Suspended t0),
          mkCfg s (mkWorld rest dn bs) lg)
    else (Return (None, Finished), mkCfg s (mkWorld (t2 :: rest) dn bs) lg).
Proof.
  intros Hne.
  rewrite <- (next_line_man_suspended disp dur ref s t0 t1 t2 rest dn bs lg Hne).
  reflexivity.
Qed.

(** C6. For a smooth-line maneuver with displacement [disp] and duration
    [dur] > 0: the function it samples gives, at every elapsed time [t], the
    velocity whose component [i] is [-6 * disp_i / dur^3 * t * (t - dur)].
    Iteration yields exactly these values at the elapsed time: whenever the
    reading of the clock at the loop test is within the duration a sample
    is yielded, and it is the profile at [time() - start_time] for the next
    reading of the clock ([start_time] being the reading taken at the first
    pull); when the reading at the loop test has reached the duration,
    iteration stops.  Along every axis the expression is zero at [t = 0]
    and at [t = dur], and its integral over [0, dur] is [disp_i]. *)
Theorem line_man_closed_form (disp : vector) (dur : R) (ref : string)
    (Hdur : 0 < dur) :
  let man := line_man disp dur ref in
  getattr man "f" = Ok (VFunc (parametric disp dur)) /\
  (forall t, parametric disp dur t = Ok (map (fun d => closed_form d dur t) disp)) /\
  (forall g c vel g' c',
      next man g c = (Return (Some vel, g'), c') ->
      exists t, vel = map (fun d => closed_form d dur t) disp) /\
  (forall i d,
      nth_error disp i = Some d ->
      (forall t, nth_error (map (fun d => closed_form d dur t) disp) i =
                 Some (-6 * d / dur ^ 3 * (t * (t - dur)))) /\
      closed_form d dur 0 = 0 /\
      closed_form d dur dur = 0 /\
      inhabited (Riemann_integrable (closed_form d dur) 0 dur) /\
      forall pr : Riemann_integrable (closed_form d dur) 0 dur, RiemannInt pr = d) /\
  (forall s t0 t1 t2 rest dn bs lg,
      t1 - t0 < dur ->
      next man Created (mkCfg s (mkWorld (t0 :: t1 :: t2 :: rest) dn bs) lg) =
        (Return (Some (map (fun d => closed_form d dur (t2 - t0)) disp), Suspended t0),
         mkCfg s (mkWorld rest dn bs) lg) /\
      next man (Suspended t0) (mkCfg s (mkWorld (t1 :: t2 :: rest) dn bs) lg) =
        (Return (Some (map (fun d => closed_form d dur (t2 - t0)) disp), Suspended t0),
         mkCfg s (mkWorld rest dn bs) lg)) /\
  (forall s t0 t1 t2 rest dn bs lg,
      ~ t1 - t0 < dur ->
      next man Created (mkCfg s (mkWorld (t0 :: t1 :: t2 :: rest) dn bs) lg) =
        (Return (None, Finished), mkCfg s (mkWorld (t2 :: rest) dn bs) lg) /\
      next man (Suspended t0) (mkCfg s (mkWorld (t1 :: t2 :: rest) dn bs) lg) =
        (Return (None, Finished), mkCfg s (mkWorld (t2 :: rest) dn bs) lg)).
Proof.
  intros man. assert (Hne : dur <> 0) by lra.
  split; [reflexivity|].
  split; [intros t; apply parametric_total; lra|].
  split; [intros g c vel g' c'; apply next_line_man_yield|].
  split.
  { intros i d Hi. split.
    - intros t. rewrite nth_error_map, Hi. reflexivity.
    - destruct (closed_form_ends d dur) as [H0 H1].
      split; [exact H0|]. split; [exact H1|].
      split; [constructor; apply closed_form_integrable; exact Hdur|].
      intros pr. apply closed_form_integral. exact Hdur. }
  split.
  - intros s t0 t1 t2 rest dn bs lg Hin. unfold man.
    rewrite (next_line_man_created disp dur ref s t0 t1 t2 rest dn bs lg Hne).
    rewrite (next_line_man_suspended disp dur ref s t0 t1 t2 rest dn bs lg Hne).
    rewrite (ltb_true _ _ Hin). split; reflexivity.
  - intros s t0 t1 t2 rest dn bs lg Hout. unfold man.
    rewrite (next_line_man_created disp dur ref s t0 t1 t2 rest dn bs lg Hne).
    rewrite (next_line_man_suspended disp dur ref s t0 t1 t2 rest dn bs lg Hne).
    rewrite (ltb_false _ _ Hout). split; reflexivity.
Qed.

Lemma line_man_closed_form_witness :
  0 < 5 /\
  (forall t, parametric [0; -1; 0] 5 t =
             Ok (map (fun d => closed_form d 5 t) [0; -1; 0])) /\
  (forall pr : Riemann_integrable (closed_form (-1) 5) 0 5, RiemannInt pr = -1) /\
  1 - 0 < 5 /\
  next (line_man [0; -1; 0] 5 default_ref) Created
    (mkCfg (new_TranslationController []) (mkWorld [0; 1; 2; 3] false []) []) =
    (Return (Some (map (fun d => closed_form d 5 (2 - 0)) [0; -1; 0]), Suspended 0),
     mkCfg (new_TranslationController []) (mkWorld [3] false []) []).
Proof.
  assert (H5 : 0 < 5) by lra.
  assert (H1 : 1 - 0 < 5) by lra.
  split; [exact H5|].
  destruct (line_man_closed_form [0; -1; 0] 5 default_ref H5)
    as (_ & Hf & _ & Hax & Hyield & _).
  split; [exact Hf|].
  split.
  { destruct (Hax 1%nat (-1) eq_refl) as (_ & _ & _ & _ & Hint). exact Hint. }
  split; [exact H1|].
  exact (proj1 (Hyield (new_TranslationController []) 0 1 2 [3] false [] [] H1)).
Defined.

(** ** Pulling a sample only reads the clock *)

Lemma time_frame (c c1 : cfg) (r : reply R) :
  time c = (r, c1) ->
  self c1 = self c /\ log c1 = log c /\
  down (env c1) = down (env c) /\ boundaries (env c1) = boundaries (env c).
Proof.
  unfold time. destruct (clock (env c)); intros H; inversion H; cbn; auto.
Qed.

Lemma loop_head_frame (man : instance) (t0 : R) (c c1 : cfg)
    (r : reply (option vector * generator)) :
  loop_head man t0 c = (r, c1) ->
  self c1 = self c /\ log c1 = log c /\
  down (env c1) = down (env c) /\ boundaries (env c1) = boundaries (env c).
Proof.
  unfold loop_head, bind. intros H.
  destruct (time c) as [[now | e |] c2] eqn:Ht;
    pose proof (time_frame _ _ _ Ht) as (Hs & Hl & Hd & Hb);
    try (inversion H; subst; auto; fail).
  unfold lift in H.
  destruct (let? d := getattr man "dur" in as_float d) as [dr | e];
    [| inversion H; subst; auto].
  destruct (ltb (now - t0) dr); [| inversion H; subst; auto].
  destruct (class_of man).
  - destruct (let? v := getattr man "vel_set" in as_list v);
      inversion H; subst; auto.
  - destruct (let? v := getattr man "f" in as_func v) as [f | e];
      [| inversion H; subst; auto].
    destruct (time c2) as [[t | e |] c3] eqn:Ht2;
      pose proof (time_frame _ _ _ Ht2) as (Hs2 & Hl2 & Hd2 & Hb2);
      try (inversion H; subst; repeat split; congruence).
    destruct (f (t - t0)); inversion H; subst; repeat split; congruence.
  - destruct (let? v := getattr man "f" in as_func v) as [f | e];
      [| inversion H; subst; auto].
    destruct (time c2) as [[t | e |] c3] eqn:Ht2;
      pose proof (time_frame _ _ _ Ht2) as (Hs2 & Hl2 & Hd2 & Hb2);
      try (inversion H; subst; repeat split; congruence).
    destruct (f (t - t0)); inversion H; subst; repeat split; congruence.
Qed.

Lemma next_frame (man : instance) (g : generator) (c c1 : cfg)
    (r : reply (option vector * generator)) :
  next man g c = (r, c1) ->
  self c1 = self c /\ log c1 = log c /\
  down (env c1) = down (env c) /\ boundaries (env c1) = boundaries (env c).
Proof.
  destruct g as [| t0 |]; cbn [next].
  - unfold bind. intros H.
    destruct (time c) as [[t0 | e |] c2] eqn:Ht;
      pose proof (time_frame _ _ _ Ht) as (Hs & Hl & Hd & Hb);
      try (inversion H; subst; auto; fail).
    pose proof (loop_head_frame _ _ _ _ _ H) as (Hs2 & Hl2 & Hd2 & Hb2).
    repeat split; congruence.
  - unfold bind, sleep, ret. apply loop_head_frame.
  - unfold ret. intros H. inversion H; subst; auto.
Qed.

(** ** Writing one sample *)

Lemma write_sample_nominal (man : instance) (ref : string) (vel : vector)
    (a b d : R) (c : cfg) :
  getattr man "ref" = Ok (VStr ref) ->
  get_lenu_velocity (q_bu_lenu (self c)) vel ref = Ok [a; b; d] ->
  write_sample man vel c =
    (Return tt,
     with_log (log c ++ [Reset; Wrote man [a; b; d]]) (with_slot (twist_of a b d) c)).
Proof.
  intros Href Htr. destruct c as [s w lg].
  unfold write_sample, reset_setpoint.
  cbn [bind modify record gets self env log set_vel_setpoint q_bu_lenu] in *.
  rewrite Href. cbn [bind rbind as_str lift]. rewrite Htr.
  cbn. unfold with_log, with_slot, twist_of, record. cbn.
  rewrite <- app_assoc. reflexivity.
Qed.

(** Whatever happens, [write_sample] touches only the slot and the record,
    and writes at most the one sample. *)
Lemma write_sample_spec (man : instance) (vel : vector) (c : cfg) :
  exists (r : reply unit) (t : Twist) (evs : list event),
    write_sample man vel c =
      (r, with_log (log c ++ Reset :: evs) (with_slot t c)) /\
    ((exists e, r = Throw e) /\ evs = [] \/
     (exists v, r = Return tt /\ evs = [Wrote man v])).
Proof.
  destruct c as [s w lg].
  unfold write_sample, reset_setpoint, with_log, with_slot.
  cbn [bind modify record gets self env log set_vel_setpoint q_bu_lenu].
  destruct (let? v := getattr man "ref" in as_str v) as [ref | e];
    cbn [bind lift modify self env log].
  2:{ exists (Throw e), new_Twist, []. split; [reflexivity | left; eauto]. }
  match goal with
  | |- context [get_lenu_velocity ?q vel ref] =>
      destruct (get_lenu_velocity q vel ref) as [v | e]
  end; cbn [bind lift modify self env log].
  2:{ exists (Throw e), new_Twist, []. split; [reflexivity | left; eauto]. }
  destruct (index v 0) as [v0 | e]; cbn [bind lift modify self env log].
  2:{ exists (Throw e), new_Twist, []. split; [reflexivity | left; eauto]. }
  destruct (index v 1) as [v1 | e]; cbn [bind lift modify self env log].
  2:{ eexists (Throw e), _, []. split; [reflexivity | left; eauto]. }
  destruct (index v 2) as [v2 | e]; cbn [bind lift modify self env log].
  2:{ eexists (Throw e), _, []. split; [reflexivity | left; eauto]. }
  unfold record. cbn [self env log].
  eexists (Return tt), _, [Wrote man v]. split.
  - rewrite <- app_assoc. reflexivity.
  - right. eauto.
Qed.

(** ** What the environment can do at a sample boundary *)

Lemma wrote_count_app (l1 l2 : list event) :
  wrote_count (l1 ++ l2) = (wrote_count l1 + wrote_count l2)%nat.
Proof. unfold wrote_count. rewrite filter_app, length_app. reflexivity. Qed.

Lemma deliver_all_spec (ms : list message) (c : cfg) :
  exists (s' : TranslationController) (evs : list event),
    deliver_all ms c = (Return tt, mkCfg s' (env c) (log c ++ evs)) /\
    vel_setpoint_bu_lenu__lenu s' = vel_setpoint_bu_lenu__lenu (self c) /\
    maneuvers s' = maneuvers (self c) /\
    wrote_count evs = 0%nat /\
    (forallb (fun m => negb (is_state_msg m)) ms = true ->
     current_state s' = current_state (self c)).
Proof.
  revert c. induction ms as [| m ms IH]; intros c.
  - exists (self c), []. rewrite app_nil_r. destruct c; cbn. auto.
  - cbn [deliver_all]. unfold bind.
    destruct m as [s | q].
    + cbn [deliver]. unfold update_states.
      cbn [bind gets modify record self env log].
      match goal with
      | |- context [deliver_all ms ?c1] =>
          destruct (IH c1) as (s' & evs & Heq & Hslot & Hman & Hcnt & _); rewrite Heq
      end.
      cbn [self env log] in *.
      exists s', (ModeUpdate s :: evs).
      rewrite <- app_assoc. cbn [app].
      split; [reflexivity|]. split; [exact Hslot|]. split; [exact Hman|].
      split; [exact Hcnt|].
      cbn [forallb is_state_msg negb andb]. discriminate.
    + cbn [deliver]. unfold pose_sub_cb.
      cbn [bind gets modify record self env log].
      match goal with
      | |- context [deliver_all ms ?c1] =>
          destruct (IH c1) as (s' & evs & Heq & Hslot & Hman & Hcnt & Hcur); rewrite Heq
      end.
      cbn [self env log] in *.
      exists s', evs.
      split; [reflexivity|]. split; [exact Hslot|]. split; [exact Hman|].
      split; [exact Hcnt|].
      cbn [forallb is_state_msg negb andb]. intros H. exact (Hcur H).
Qed.

Lemma sample_boundary_spec (c : cfg) :
  exists (s' : TranslationController) (w' : world) (evs : list event),
    sample_boundary c = (Return tt, mkCfg s' w' (log c ++ evs)) /\
    vel_setpoint_bu_lenu__lenu s' = vel_setpoint_bu_lenu__lenu (self c) /\
    clock w' = clock (env c) /\
    wrote_count evs = 0%nat /\
    (aborting c = true -> aborting (mkCfg s' w' (log c ++ evs)) = true).
Proof.
  unfold sample_boundary.
  destruct (boundaries (env c)) as [| b bs] eqn:Hbs.
  - exists (self c), (env c), []. rewrite app_nil_r. destruct c; cbn. auto.
  - match goal with
    | |- context [deliver_all ?ms ?c1] =>
        destruct (deliver_all_spec ms c1) as (s' & evs & Heq & Hslot & _ & Hcnt & Hcur);
          rewrite Heq
    end.
    cbn [self env log] in *.
    eexists s', _, evs. split; [reflexivity|].
    split; [exact Hslot|]. split; [reflexivity|]. split; [exact Hcnt|].
    unfold aborting. cbn [self env down boundaries]. rewrite Hbs.
    cbn [modes_settled forallb].
    intros H. apply orb_true_iff in H. apply orb_true_iff.
    destruct H as [H | H].
    + left. rewrite H. reflexivity.
    + apply andb_true_iff in H. destruct H as [Hmode Hset].
      apply andb_true_iff in Hset. destruct Hset as [Hb Hrest].
      right. rewrite (Hcur Hb). rewrite Hmode. exact Hrest.
Qed.



(** ** Execution while the abort condition holds *)






(** ** Constant maneuvers in a quiet environment *)

Lemma next_s_man_created (vel : vector) (dur : R) (ref : string)
    (s : TranslationController) (t0 t : R) (rest : list R)
    (dn : bool) (bs : list boundary) (lg : list event) :
  next (s_man vel dur ref) Created (mkCfg s (mkWorld (t0 :: t :: rest) dn bs) lg) =
    (Return (if ltb (t - t0) dur then (Some vel, Suspended t0) else (None, Finished)),
     mkCfg s (mkWorld rest dn bs) lg).
Proof.
  unfold next, loop_head.
  cbn [bind time lift ret self env log clock down boundaries getattr s_man dict
       StaticTransforms.lookup String.eqb Ascii.eqb Bool.eqb rbind as_float].
  destruct (ltb (t - t0) dur); reflexivity.
Qed.

Lemma next_s_man_suspended (vel : vector) (dur : R) (ref : string)
    (s : TranslationController) (t0 t : R) (rest : list R)
    (dn : bool) (bs : list boundary) (lg : list event) :
  next (s_man vel dur ref) (Suspended t0) (mkCfg s (mkWorld (t :: rest) dn bs) lg) =
    (Return (if ltb (t - t0) dur then (Some vel, Suspended t0) else (None, Finished)),
     mkCfg s (mkWorld rest dn bs) lg).
Proof.
  unfold next, loop_head, sleep.
  cbn [bind time lift ret self env log clock down boundaries getattr s_man dict
       StaticTransforms.lookup String.eqb Ascii.eqb Bool.eqb rbind as_float].
  destruct (ltb (t - t0) dur); reflexivity.
Qed.

Lemma loop_body_quiet (man : instance) (ref : string) (vel : vector) (a b d : R)
    (g' : generator) (s : TranslationController) (ts : list R) (lg : list event) :
  getattr man "ref" = Ok (VStr ref) ->
  get_lenu_velocity (q_bu_lenu s) vel ref = Ok [a; b; d] ->
  mode (current_state s) = "OFFBOARD" ->
  loop_body man vel g' (mkCfg s (mkWorld ts false []) lg) =
    (Return (Continue g'),
     mkCfg (set_vel_setpoint (twist_of a b d) s) (mkWorld ts false [])
       (lg ++ [Reset; Wrote man [a; b; d]])).
Proof.
  intros Href Htr Hmode. unfold loop_body.
  rewrite (bind_Return _ _ _ _ _
             (write_sample_nominal man ref vel a b d
                (mkCfg s (mkWorld ts false []) lg) Href Htr)).
  unfold with_log, with_slot, sample_boundary, abort_test.
  cbn [bind is_shutdown gets self env log boundaries down current_state
       set_vel_setpoint orb].
  rewrite Hmode. reflexivity.
Qed.

Lemma for_loop_s_man (vel : vector) (dur : R) (ref : string)
    (a b d t0 tend : R) (rest : list R) :
  ~ tend - t0 < dur ->
  forall (ts : list R) (fuel : nat) (s : TranslationController) (lg : list event),
    (List.length ts < fuel)%nat ->
    Forall (fun t => t - t0 < dur) ts ->
    mode (current_state s) = "OFFBOARD" ->
    get_lenu_velocity (q_bu_lenu s) vel ref = Ok [a; b; d] ->
    exists tw,
      for_loop fuel (s_man vel dur ref) (Suspended t0)
        (mkCfg s (mkWorld (ts ++ tend :: rest) false []) lg) =
      (Return tt,
       mkCfg (set_vel_setpoint tw s) (mkWorld rest false [])
         (lg ++ concat (map (fun _ => [Reset; Wrote (s_man vel dur ref) [a; b; d]]) ts))).
Proof.
  intros Hend ts.
  induction ts as [| t ts IH]; intros fuel s lg Hfuel Hts Hmode Htr.
  - destruct fuel as [| fuel]; [cbn in Hfuel; lia|].
    exists (vel_setpoint_bu_lenu__lenu s).
    cbn [for_loop app]. unfold iteration, bind.
    rewrite next_s_man_suspended, (ltb_false _ _ Hend).
    cbn [ret map concat]. rewrite app_nil_r. destruct s; reflexivity.
  - destruct fuel as [| fuel]; [cbn in Hfuel; lia|].
    inversion Hts as [| ? ? Ht Hts']; subst.
    cbn [for_loop app]. unfold iteration, bind.
    rewrite next_s_man_suspended, (ltb_true _ _ Ht).
    rewrite (loop_body_quiet (s_man vel dur ref) ref vel a b d (Suspended t0)
               s (ts ++ tend :: rest) lg eq_refl Htr Hmode).
    destruct (IH fuel (set_vel_setpoint (twist_of a b d) s)
                (lg ++ [Reset; Wrote (s_man vel dur ref) [a; b; d]]))
      as [tw Htw]; [cbn in Hfuel; lia | exact Hts' | exact Hmode | exact Htr |].
    exists tw. fold (bind (A := flow) (B := unit)) in Htw |- *.
    rewrite Htw. cbn [map concat]. rewrite <- app_assoc. reflexivity.
Qed.

(** A constant maneuver whose samples transform, run with the mode staying
    OFFBOARD and no shutdown, on a clock that passes its duration: it runs
    to completion, writes one sample per reading within the duration, and
    leaves the slot at zero. *)
Lemma execute_maneuver_s_man_completes (vel : vector) (dur : R) (ref : string)
    (a b d t0 tend : R) (ts rest : list R)
    (s : TranslationController) (lg : list event) :
  Forall (fun t => t - t0 < dur) ts ->
  ~ tend - t0 < dur ->
  mode (current_state s) = "OFFBOARD" ->
  get_lenu_velocity (q_bu_lenu s) vel ref = Ok [a; b; d] ->
  execute_maneuver (s_man vel dur ref)
    (mkCfg s (mkWorld (t0 :: ts ++ tend :: rest) false []) lg) =
  (Return tt,
   mkCfg (set_vel_setpoint new_Twist s) (mkWorld rest false [])
     (lg ++ concat (map (fun _ => [Reset; Wrote (s_man vel dur ref) [a; b; d]]) ts)
         ++ [Reset])).
Proof.
  intros Hts Hend Hmode Htr. unfold execute_maneuver.
  cbn [env clock for_loop]. unfold iteration.
  destruct ts as [| t ts].
  - cbn [app]. unfold bind.
    rewrite next_s_man_created, (ltb_false _ _ Hend).
    reflexivity.
  - inversion Hts as [| ? ? Ht Hts']; subst.
    cbn [app]. unfold bind.
    rewrite next_s_man_created, (ltb_true _ _ Ht).
    rewrite (loop_body_quiet (s_man vel dur ref) ref vel a b d (Suspended t0)
               s (ts ++ tend :: rest) lg eq_refl Htr Hmode).
    destruct (for_loop_s_man vel dur ref a b d t0 tend rest Hend ts
                (List.length (t0 :: t :: ts ++ tend :: rest))
                (set_vel_setpoint (twist_of a b d) s)
                (lg ++ [Reset; Wrote (s_man vel dur ref) [a; b; d]]))
      as [tw Htw]; [cbn; rewrite length_app; lia | exact Hts' | exact Hmode | exact Htr |].
    rewrite Htw. cbn [map concat]. unfold reset_setpoint, bind, record.
    cbn [modify self env log set_vel_setpoint].
    rewrite <- !app_assoc. reflexivity.
Qed.

(** ** The forward-camera frame with a level attitude *)

Lemma EPS_small : ~ 1 < tft._EPS.
Proof.
  unfold tft._EPS.
  assert (H : 4 < 2 ^ 52) by (simpl; lra).
  assert (Hp : 0 < 2 ^ 52) by lra.
  intros Hlt. apply (Rmult_lt_compat_r (2 ^ 52)) in Hlt; [|exact Hp].
  replace (/ 2 ^ 52 * 4 * 2 ^ 52) with 4 in Hlt by (field; lra).
  lra.
Qed.

Lemma R_bd2bu_closed :
  StaticTransforms.R_bd2bu =
  [[1; 0; 0; 0]; [0; -1; 0; 0]; [0; 0; -1; 0]; [0; 0; 0; 1]].
Proof.
  unfold StaticTransforms.R_bd2bu, StaticTransforms.R_bu2bd.
  rewrite rotation_matrix_pi_x. reflexivity.
Qed.

Lemma quaternion_matrix_level :
  tft.quaternion_matrix (Some [0; 0; 0; 1]) = Ok tft.identity_matrix.
Proof.
  unfold tft.quaternion_matrix. cbn [firstn np.inner].
  replace (0 * 0 + (0 * 0 + (0 * 0 + (1 * 1 + 0)))) with 1 by ring.
  rewrite (ltb_false _ _ EPS_small). cbn [map].
  unfold tft.identity_matrix. apply f_equal. repeat (f_equal; try lra).
Qed.

(** With the identity quaternion (x, y, z, w) = (0, 0, 0, 1), a vector of
    the forward-camera frame (x right, y down, z forward) reads
    (forward, left, up) in the local ENU frame. *)
Lemma get_lenu_velocity_fc_level (vx vy vz : R) :
  get_lenu_velocity (Some [0; 0; 0; 1]) [vx; vy; vz] "fc" = Ok [vz; - vx; - vy].
Proof.
  unfold get_lenu_velocity.
  cbn [String.eqb Ascii.eqb Bool.eqb].
  rewrite quaternion_matrix_level. cbn [rbind].
  unfold StaticTransforms.coord_transform.
  cbn [String.eqb Ascii.eqb Bool.eqb StaticTransforms.R_str String.append
       StaticTransforms.lookup StaticTransforms.class_attributes].
  unfold StaticTransforms.R_fc2bu. rewrite R_bd2bu_closed.
  cbn. repeat (f_equal; try lra).
Qed.

(** ** The slot after a maneuver *)

Lemma five_second_clock_within :
  Forall (fun t => t - 0 < 5) (map (fun k => INR k / 10) (seq 0 50)).
Proof.
  apply Forall_forall. intros t Hin.
  apply in_map_iff in Hin. destruct Hin as (k & <- & Hk).
  apply in_seq in Hk.
  assert (H : INR k < INR 50) by (apply lt_INR; lia).
  replace (INR 50) with 50 in H by (simpl; lra).
  lra.
Qed.

(** C8. Whenever [execute_maneuver] returns, the slot holds the zero
    velocity, and resetting it was the last thing done to it; the loop over
    the samples hands over to that reset both when the maneuver is
    exhausted and when the test of line 204 breaks out of it.  The
    controller only proceeds to the next maneuver of the list after
    [execute_maneuver] has returned. *)
Theorem execute_maneuver_resets_slot (man : instance) (c c' : cfg)
    (Hret : execute_maneuver man c = (Return tt, c')) :
  vel_setpoint_bu_lenu__lenu (self c') = new_Twist /\
  (exists l, log c' = l ++ [Reset]) /\
  (forall fuel g c1 c2,
      iteration man g c1 = (Return Stop, c2) \/
      iteration man g c1 = (Return Break, c2) ->
      (for_loop (S fuel) man g ;; reset_setpoint) c1 =
        (Return tt, with_log (log c2 ++ [Reset]) (with_slot new_Twist c2))) /\
  (forall rest, execute_all (man :: rest) c = execute_all rest c').
Proof.
  split; [|split; [|split]].
  - unfold execute_maneuver in Hret.
    apply bind_inv_Return in Hret. destruct Hret as ([] & c1 & _ & Hr).
    unfold reset_setpoint, bind, modify, record in Hr. cbn in Hr.
    inversion Hr. reflexivity.
  - unfold execute_maneuver in Hret.
    apply bind_inv_Return in Hret. destruct Hret as ([] & c1 & _ & Hr).
    unfold reset_setpoint, bind, modify, record in Hr. cbn in Hr.
    inversion Hr. cbn. eexists. reflexivity.
  - intros fuel g c1 c2 [H | H]; cbn [for_loop]; unfold bind at 1 2;
      rewrite H; reflexivity.
  - intros rest. cbn [execute_all]. unfold bind. rewrite Hret. reflexivity.
Qed.

Lemma execute_maneuver_resets_slot_witness :
  exists c',
    execute_maneuver five_seconds_left
      (mkCfg (set_states offboard posctl (holding [five_seconds_left]))
         (mkWorld five_second_clock false []) []) = (Return tt, c') /\
    vel_setpoint_bu_lenu__lenu (self c') = new_Twist /\
    wrote_count (log c') = 50%nat /\
    clock (env c') = [].
Proof.
  pose proof (execute_maneuver_s_man_completes
                [0; - (2 / 10); 0] 5 default_ref 0 (- 0) (- - (2 / 10)) 0 5
                (map (fun k => INR k / 10) (seq 0 50)) []
                (set_states offboard posctl (holding [five_seconds_left])) []
                five_second_clock_within
                ltac:(lra) eq_refl
                (get_lenu_velocity_fc_level 0 (- (2 / 10)) 0)) as Hrun.
  eexists. split; [exact Hrun|].
  split; [exact (proj1 (execute_maneuver_resets_slot _ _ _ Hrun))|].
  split; reflexivity.
Defined.

(** ** Errors raised by the transform *)

Lemma write_sample_raises (man : instance) (ref : string) (vel : vector)
    (e : exn) (c : cfg) :
  getattr man "ref" = Ok (VStr ref) ->
  get_lenu_velocity (q_bu_lenu (self c)) vel ref = Raise e ->
  write_sample man vel c =
    (Throw e, with_log (log c ++ [Reset]) (with_slot new_Twist c)).
Proof.
  intros Href Htr. destruct c as [s w lg].
  unfold write_sample, reset_setpoint.
  cbn [bind modify record gets self env log set_vel_setpoint q_bu_lenu] in *.
  rewrite Href. cbn [bind rbind as_str lift]. rewrite Htr.
  reflexivity.
Qed.

(** An error of the transform at the first sample leaves [execute_maneuver]
    and the loop over the maneuver list. *)
Lemma first_sample_raises (man : instance) (ref : string) (vel : vector)
    (g' : generator) (e : exn) (c c1 : cfg) :
  getattr man "ref" = Ok (VStr ref) ->
  next man Created c = (Return (Some vel, g'), c1) ->
  get_lenu_velocity (q_bu_lenu (self c)) vel ref = Raise e ->
  execute_maneuver man c =
    (Throw e, with_log (log c ++ [Reset]) (with_slot new_Twist c1)) /\
  forall rest,
    execute_all (man :: rest) c =
      (Throw e, with_log (log c ++ [Reset]) (with_slot new_Twist c1)).
Proof.
  intros Href Hnext Htr.
  destruct (next_frame _ _ _ _ _ Hnext) as (Hs & Hl & _ & _).
  assert (Hex : execute_maneuver man c =
                  (Throw e, with_log (log c ++ [Reset]) (with_slot new_Twist c1))).
  { unfold execute_maneuver. cbn [for_loop].
    unfold iteration, bind. rewrite Hnext.
    unfold loop_body, bind.
    rewrite (write_sample_raises man ref vel e c1 Href)
      by (rewrite Hs; exact Htr).
    rewrite Hl. reflexivity. }
  split; [exact Hex|].
  intros rest. cbn [execute_all]. unfold bind. rewrite Hex. reflexivity.
Qed.

Lemma get_lenu_velocity_no_pose (vel : vector) (ref : string) :
  ref <> "lenu" -> ref <> "lned" ->
  get_lenu_velocity None vel ref =
    Raise (TypeError "'NoneType' object is not subscriptable").
Proof.
  intros H1 H2. unfold get_lenu_velocity.
  apply String.eqb_neq in H1, H2. rewrite H1, H2. reflexivity.
Qed.

(** C3, as the code has it. If a maneuver is expressed in a frame other
    than ['lenu'] and ['lned'] and no pose has arrived when its first sample
    is pulled, then the transform raises [TypeError]; the slot has just
    been replaced by a zero [Twist] and nothing else is written; the error
    is not handled, so it ends [execute_maneuver] and the loop over the
    maneuver list: no further sample of this maneuver or of a later one is
    pulled. *)
Theorem body_frame_sample_without_pose (man : instance) (ref : string)
    (vel : vector) (g' : generator) (c c1 : cfg)
    (Hq : q_bu_lenu (self c) = None)
    (Href : getattr man "ref" = Ok (VStr ref))
    (Hlenu : ref <> "lenu") (Hlned : ref <> "lned")
    (Hnext : next man Created c = (Return (Some vel, g'), c1)) :
  let err := TypeError "'NoneType' object is not subscriptable" in
  let c' := with_log (log c ++ [Reset]) (with_slot new_Twist c1) in
  get_lenu_velocity (q_bu_lenu (self c)) vel ref = Raise err /\
  execute_maneuver man c = (Throw err, c') /\
  (forall rest, execute_all (man :: rest) c = (Throw err, c')) /\
  vel_setpoint_bu_lenu__lenu (self c') = new_Twist /\
  set_vel_setpoint new_Twist (self c) = self c' /\
  wrote_count (log c') = wrote_count (log c).
Proof.
  intros err c'.
  assert (Htr : get_lenu_velocity (q_bu_lenu (self c)) vel ref = Raise err)
    by (rewrite Hq; apply get_lenu_velocity_no_pose; assumption).
  destruct (first_sample_raises man ref vel g' err c c1 Href Hnext Htr) as [Hex Hall].
  destruct (next_frame _ _ _ _ _ Hnext) as (Hs & _).
  split; [exact Htr|]. split; [exact Hex|]. split; [exact Hall|].
  split; [reflexivity|].
  split; [unfold c'; cbn; rewrite Hs; reflexivity|].
  unfold c'. cbn [log with_log]. rewrite wrote_count_app. cbn. lia.
Qed.

Lemma body_frame_sample_without_pose_witness :
  let c := mkCfg (set_states offboard posctl (fresh_holding [five_seconds_left]))
             (mkWorld short_clock false []) [] in
  let c1 := with_clock [1 / 10; 2 / 10; 3 / 10; 6] c in
  q_bu_lenu (self c) = None /\
  getattr five_seconds_left "ref" = Ok (VStr "fc") /\
  next five_seconds_left Created c =
    (Return (Some [0; - (2 / 10); 0], Suspended 0), c1) /\
  execute_maneuver five_seconds_left c =
    (Throw (TypeError "'NoneType' object is not subscriptable"),
     with_log [Reset] (with_slot new_Twist c1)).
Proof.
  intros c c1.
  assert (Hnext : next five_seconds_left Created c =
                    (Return (Some [0; - (2 / 10); 0], Suspended 0), c1)).
  { unfold c, five_seconds_left, short_clock.
    rewrite next_s_man_created. rewrite ltb_true by lra. reflexivity. }
  split; [reflexivity|]. split; [reflexivity|]. split; [exact Hnext|].
  exact (proj1 (proj2 (body_frame_sample_without_pose
                         five_seconds_left "fc" [0; - (2 / 10); 0] (Suspended 0) c c1
                         eq_refl eq_refl
                         ltac:(discriminate) ltac:(discriminate) Hnext))).
Defined.

(** C3 as stated fails: a controller that has received no pose enters
    OFFBOARD with a forward-camera maneuver followed by a world-frame one,
    on a clock that leaves room for three more samples.  The first sample
    is not merely dropped: [state_cb] ends with the [TypeError], four clock
    readings are left unread, no later sample is pulled, and the second
    maneuver (which needs no pose) is never started. *)
Lemma sample_without_pose_ends_callback :
  state_cb offboard
    (mkCfg (fresh_holding [five_seconds_left; go_east])
       (mkWorld short_clock false []) []) =
  (Throw (TypeError "'NoneType' object is not subscriptable"),
   mkCfg (set_states offboard posctl (fresh_holding [five_seconds_left; go_east]))
     (mkWorld [1 / 10; 2 / 10; 3 / 10; 6] false [])
     [ModeUpdate offboard; Reset]).
Proof.
  unfold state_cb, update_states, when.
  cbn -[execute_all].
  set (c := mkCfg (set_states offboard posctl
                     (fresh_holding [five_seconds_left; go_east]))
              (mkWorld short_clock false []) [ModeUpdate offboard]).
  assert (Hnext : next five_seconds_left Created c =
                    (Return (Some [0; - (2 / 10); 0], Suspended 0),
                     with_clock [1 / 10; 2 / 10; 3 / 10; 6] c)).
  { unfold c, five_seconds_left, short_clock.
    rewrite next_s_man_created. rewrite ltb_true by lra. reflexivity. }
  assert (Htr : get_lenu_velocity (q_bu_lenu (self c)) [0; - (2 / 10); 0] "fc" =
                  Raise (TypeError "'NoneType' object is not subscriptable"))
    by (apply get_lenu_velocity_no_pose; discriminate).
  destruct (first_sample_raises five_seconds_left "fc" _ _ _ c _ eq_refl Hnext Htr)
    as [_ Hall].
  exact (Hall [go_east]).
Qed.

(** ** Frames without a static rotation *)

Lemma append_assoc (s1 s2 s3 : string) :
  String.append (String.append s1 s2) s3 = String.append s1 (String.append s2 s3).
Proof.
  induction s1 as [| ch s1 IH]; cbn [String.append]; [reflexivity|].
  rewrite IH. reflexivity.
Qed.

Lemma coord_transform_unknown (v : vector) (fin fout : string) :
  fin <> fout ->
  StaticTransforms.lookup (StaticTransforms.R_str fin fout)
    StaticTransforms.class_attributes = None ->
  StaticTransforms.coord_transform v fin fout =
    Raise (AttributeError (StaticTransforms.no_transform_message fin fout)).
Proof.
  intros Hne Hlook. unfold StaticTransforms.coord_transform.
  apply String.eqb_neq in Hne. rewrite Hne, Hlook. reflexivity.
Qed.

Lemma quaternion_matrix_four (a b c d : R) :
  exists Rq, tft.quaternion_matrix (Some [a; b; c; d]) = Ok Rq.
Proof.
  unfold tft.quaternion_matrix. cbn [firstn map].
  destruct (ltb _ _); eexists; reflexivity.
Qed.

Lemma get_lenu_velocity_unknown (a b c d : R) (vel : vector) (ref : string) :
  ref <> "lenu" -> ref <> "lned" -> ref <> "bu" ->
  StaticTransforms.lookup (StaticTransforms.R_str ref "bu")
    StaticTransforms.class_attributes = None ->
  get_lenu_velocity (Some [a; b; c; d]) vel ref =
    Raise (AttributeError (StaticTransforms.no_transform_message ref "bu")).
Proof.
  intros H1 H2 H3 Hlook. unfold get_lenu_velocity.
  apply String.eqb_neq in H1, H2. rewrite H1, H2.
  destruct (quaternion_matrix_four a b c d) as [Rq ->]. cbn [rbind].
  rewrite (coord_transform_unknown vel ref "bu" H3 Hlook). reflexivity.
Qed.

(** C4, as the code has it. A transform between two different frames for
    which the class holds no rotation raises [AttributeError] with a
    message that names both frames.  In maneuver execution this happens,
    once a pose has arrived, for a maneuver whose frame is neither ['lenu'],
    ['lned'] nor ['bu'] and has no rotation to ['bu']: at its first sample
    the slot has just been replaced by a zero [Twist], nothing else is
    written, and the error, which is not handled, ends [execute_maneuver]
    and the loop over the maneuver list. *)
Theorem unknown_frame_sample (man : instance) (ref : string)
    (vel : vector) (g' : generator) (c c1 : cfg) (qa qb qc qd : R)
    (Hq : q_bu_lenu (self c) = Some [qa; qb; qc; qd])
    (Href : getattr man "ref" = Ok (VStr ref))
    (Hlenu : ref <> "lenu") (Hlned : ref <> "lned") (Hbu : ref <> "bu")
    (Htab : StaticTransforms.lookup (StaticTransforms.R_str ref "bu")
              StaticTransforms.class_attributes = None)
    (Hnext : next man Created c = (Return (Some vel, g'), c1)) :
  let err := AttributeError (StaticTransforms.no_transform_message ref "bu") in
  let c' := with_log (log c ++ [Reset]) (with_slot new_Twist c1) in
  (forall v fin fout,
      fin <> fout ->
      StaticTransforms.lookup (StaticTransforms.R_str fin fout)
        StaticTransforms.class_attributes = None ->
      StaticTransforms.coord_transform v fin fout =
        Raise (AttributeError (StaticTransforms.no_transform_message fin fout)) /\
      StaticTransforms.no_transform_message fin fout =
        ("No static transform exists from " ++ fin ++ " to " ++ fout ++ "."
         ++ " Are you sure these frames are not moving relative to each other?")%string) /\
  get_lenu_velocity (q_bu_lenu (self c)) vel ref = Raise err /\
  execute_maneuver man c = (Throw err, c') /\
  (forall rest, execute_all (man :: rest) c = (Throw err, c')) /\
  vel_setpoint_bu_lenu__lenu (self c') = new_Twist /\
  wrote_count (log c') = wrote_count (log c).
Proof.
  intros err c'.
  assert (Htr : get_lenu_velocity (q_bu_lenu (self c)) vel ref = Raise err)
    by (rewrite Hq; apply get_lenu_velocity_unknown; assumption).
  destruct (first_sample_raises man ref vel g' err c c1 Href Hnext Htr) as [Hex Hall].
  split.
  { intros v fin fout Hne Hlook. split.
    - apply coord_transform_unknown; assumption.
    - unfold StaticTransforms.no_transform_message.
      rewrite !append_assoc. reflexivity. }
  split; [exact Htr|]. split; [exact Hex|]. split; [exact Hall|].
  split; [reflexivity|].
  unfold c'. cbn [log with_log]. rewrite wrote_count_app. cbn. lia.
Qed.

Lemma unknown_frame_sample_witness :
  let c := mkCfg (set_states offboard posctl (holding [along_marker]))
             (mkWorld short_clock false []) [] in
  let c1 := with_clock [1 / 10; 2 / 10; 3 / 10; 6] c in
  q_bu_lenu (self c) = Some [0; 0; 0; 1] /\
  getattr along_marker "ref" = Ok (VStr "m") /\
  StaticTransforms.lookup (StaticTransforms.R_str "m" "bu")
    StaticTransforms.class_attributes = None /\
  next along_marker Created c = (Return (Some [1; 0; 0], Suspended 0), c1) /\
  execute_maneuver along_marker c =
    (Throw (AttributeError
              "No static transform exists from m to bu. Are you sure these frames are not moving relative to each other?"),
     with_log [Reset] (with_slot new_Twist c1)).
Proof.
  intros c c1.
  assert (Hnext : next along_marker Created c =
                    (Return (Some [1; 0; 0], Suspended 0), c1)).
  { unfold c, along_marker, short_clock.
    rewrite next_s_man_created. rewrite ltb_true by lra. reflexivity. }
  split; [reflexivity|]. split; [reflexivity|]. split; [reflexivity|].
  split; [exact Hnext|].
  exact (proj1 (proj2 (proj2 (unknown_frame_sample
                         along_marker "m" [1; 0; 0] (Suspended 0) c c1 0 0 0 1
                         eq_refl eq_refl
                         ltac:(discriminate) ltac:(discriminate) ltac:(discriminate)
                         eq_refl Hnext)))).
Defined.

(** C4 as stated fails in its second half: a controller that holds a pose
    enters OFFBOARD with a marker-frame maneuver followed by a world-frame
    one.  The sample of the first maneuver is not skipped as a tick that
    does nothing: [state_cb] ends with the [AttributeError], four clock
    readings are left unread, and the second maneuver is never started. *)
Lemma unknown_frame_ends_callback :
  state_cb offboard
    (mkCfg (holding [along_marker; go_east]) (mkWorld short_clock false []) []) =
  (Throw (AttributeError
            "No static transform exists from m to bu. Are you sure these frames are not moving relative to each other?"),
   mkCfg (set_states offboard posctl (holding [along_marker; go_east]))
     (mkWorld [1 / 10; 2 / 10; 3 / 10; 6] false [])
     [ModeUpdate offboard; Reset]).
Proof.
  unfold state_cb, update_states, when.
  cbn -[execute_all].
  set (c := mkCfg (set_states offboard posctl (holding [along_marker; go_east]))
              (mkWorld short_clock false []) [ModeUpdate offboard]).
  assert (Hnext : next along_marker Created c =
                    (Return (Some [1; 0; 0], Suspended 0),
                     with_clock [1 / 10; 2 / 10; 3 / 10; 6] c)).
  { unfold c, along_marker, short_clock.
    rewrite next_s_man_created. rewrite ltb_true by lra. reflexivity. }
  assert (Htr : get_lenu_velocity (q_bu_lenu (self c)) [1; 0; 0] "m" =
                  Raise (AttributeError (StaticTransforms.no_transform_message "m" "bu")))
    by (apply get_lenu_velocity_unknown; (discriminate || reflexivity)).
  destruct (first_sample_raises along_marker "m" _ _ _ c _ eq_refl Hnext Htr)
    as [_ Hall].
  exact (Hall [go_east]).
Qed.

(** ** A maneuver aborted at its first sample *)












(** ** The mode pair *)

Lemma preserves_bind {A B : Type} (P : cfg -> Prop) (m : M A) (k : A -> M B) :
  preserves P m -> (forall a, preserves P (k a)) -> preserves P (bind m k).
Proof.
  intros Hm Hk c Hc. unfold bind.
  specialize (Hm c Hc). destruct (m c) as [[a | e |] c1]; cbn [snd] in *.
  - exact (Hk a c1 Hm).
  - exact Hm.
  - exact Hm.
Qed.

Lemma preserves_ret {A : Type} (P : cfg -> Prop) (a : A) : preserves P (ret a).
Proof. intros c Hc. exact Hc. Qed.

Lemma preserves_when (P : cfg -> Prop) (b : bool) (m : M unit) :
  preserves P m -> preserves P (when b m).
Proof. intros Hm. destruct b; [exact Hm | apply preserves_ret]. Qed.

Lemma applied_app (l1 l2 : list event) :
  applied (l1 ++ l2) = applied l1 ++ applied l2.
Proof.
  induction l1 as [| e l1 IH]; [reflexivity|].
  destruct e; cbn [app applied]; rewrite IH; reflexivity.
Qed.

Lemma mode_stable_refl (c : cfg) : mode_stable c c.
Proof. repeat split. Qed.

Lemma mode_stable_ok (k : nat) (s0 : State) (c c' : cfg) :
  mode_stable c c' -> mode_pair_ok k s0 c -> mode_pair_ok k s0 c'.
Proof.
  intros (Hc & Hp & Ha) [Hk Hok]. unfold mode_pair_ok.
  rewrite Ha, Hc, Hp. split; assumption.
Qed.

Lemma preserves_stable {A : Type} (k : nat) (s0 : State) (m : M A) :
  (forall c, mode_stable c (snd (m c))) -> preserves (mode_pair_ok k s0) m.
Proof. intros H c Hc. exact (mode_stable_ok k s0 c _ (H c) Hc). Qed.

Lemma update_states_ok (k : nat) (s0 msg : State) (c : cfg) :
  mode_pair_ok k s0 c -> mode_pair_ok (S k) s0 (snd (update_states msg c)).
Proof.
  intros [Hk Hok]. unfold update_states, mode_pair_ok.
  cbn [bind gets modify record snd self log set_states current_state prev_state].
  rewrite applied_app. cbn [applied]. rewrite length_app, rev_app_distr.
  cbn [List.length rev app]. split; [lia|].
  destruct (rev (applied (log c))) as [| m [| p r]].
  - split; [reflexivity | exact Hok].
  - split; [reflexivity | exact (proj1 Hok)].
  - split; [reflexivity | exact (proj1 Hok)].
Qed.

Lemma mode_pair_ok_weaken (k : nat) (s0 : State) (c : cfg) :
  mode_pair_ok (S k) s0 c -> mode_pair_ok k s0 c.
Proof. intros [Hk Hok]. split; [lia | exact Hok]. Qed.

Lemma preserves_update_states (k : nat) (s0 msg : State) :
  preserves (mode_pair_ok k s0) (update_states msg).
Proof.
  intros c Hc. apply mode_pair_ok_weaken. apply update_states_ok. exact Hc.
Qed.

Lemma preserves_deliver_all (k : nat) (s0 : State) (ms : list message) :
  preserves (mode_pair_ok k s0) (deliver_all ms).
Proof.
  induction ms as [| m ms IH]; cbn [deliver_all]; [apply preserves_ret|].
  apply preserves_bind; [|intros _; exact IH].
  destruct m as [s | q]; cbn [deliver].
  - apply preserves_update_states.
  - apply preserves_stable. intros c. repeat split.
Qed.

Lemma preserves_sample_boundary (k : nat) (s0 : State) :
  preserves (mode_pair_ok k s0) sample_boundary.
Proof.
  intros c Hc. unfold sample_boundary.
  destruct (boundaries (env c)) as [| b bs]; [exact Hc|].
  apply preserves_deliver_all. exact Hc.
Qed.

Lemma preserves_next (k : nat) (s0 : State) (man : instance) (g : generator) :
  preserves (mode_pair_ok k s0) (next man g).
Proof.
  apply preserves_stable. intros c.
  destruct (next man g c) as [r c1] eqn:Hn.
  destruct (next_frame _ _ _ _ _ Hn) as (Hs & Hl & _ & _).
  cbn [snd]. unfold mode_stable. rewrite Hs, Hl. repeat split.
Qed.

Lemma preserves_write_sample (k : nat) (s0 : State) (man : instance) (vel : vector) :
  preserves (mode_pair_ok k s0) (write_sample man vel).
Proof.
  apply preserves_stable. intros c.
  destruct (write_sample_spec man vel c) as (r & t & evs & Heq & Hcase).
  rewrite Heq. cbn [snd]. unfold mode_stable.
  cbn [with_log with_slot self log set_vel_setpoint current_state prev_state].
  split; [reflexivity|]. split; [reflexivity|].
  rewrite applied_app.
  destruct Hcase as [[_ ->] | [v [_ ->]]]; cbn [applied]; apply app_nil_r.
Qed.

Lemma preserves_abort_test (k : nat) (s0 : State) (g' : generator) :
  preserves (mode_pair_ok k s0) (abort_test g').
Proof.
  apply preserves_stable. intros c. unfold abort_test.
  cbn [bind is_shutdown gets].
  destruct (_ || _); apply mode_stable_refl.
Qed.

Lemma preserves_reset_setpoint (k : nat) (s0 : State) :
  preserves (mode_pair_ok k s0) reset_setpoint.
Proof.
  apply preserves_stable. intros c. unfold reset_setpoint, mode_stable.
  cbn [bind modify record snd self log set_vel_setpoint current_state prev_state].
  rewrite applied_app. cbn [applied]. rewrite app_nil_r. repeat split.
Qed.

Lemma preserves_iteration (k : nat) (s0 : State) (man : instance) (g : generator) :
  preserves (mode_pair_ok k s0) (iteration man g).
Proof.
  unfold iteration. apply preserves_bind; [apply preserves_next|].
  intros [[vel |] g']; [|apply preserves_ret].
  unfold loop_body.
  apply preserves_bind; [apply preserves_write_sample|]. intros _.
  apply preserves_bind; [apply preserves_sample_boundary|]. intros _.
  apply preserves_abort_test.
Qed.

Lemma preserves_for_loop (k : nat) (s0 : State) (man : instance) (fuel : nat) :
  forall g, preserves (mode_pair_ok k s0) (for_loop fuel man g).
Proof.
  induction fuel as [| fuel IH]; intros g; cbn [for_loop].
  - intros c Hc. exact Hc.
  - apply preserves_bind; [apply preserves_iteration|].
    intros [g' | |]; [apply IH | apply preserves_ret | apply preserves_ret].
Qed.

Lemma preserves_execute_maneuver (k : nat) (s0 : State) (man : instance) :
  preserves (mode_pair_ok k s0) (execute_maneuver man).
Proof.
  intros c Hc. unfold execute_maneuver.
  apply (preserves_bind (mode_pair_ok k s0)
           (for_loop (S (List.length (clock (env c)))) man Created)
           (fun _ => reset_setpoint)); [apply preserves_for_loop | | exact Hc].
  intros _. apply preserves_reset_setpoint.
Qed.

Lemma preserves_execute_all (k : nat) (s0 : State) (mans : list instance) :
  preserves (mode_pair_ok k s0) (execute_all mans).
Proof.
  induction mans as [| man rest IH]; cbn [execute_all]; [apply preserves_ret|].
  apply preserves_bind; [apply preserves_execute_maneuver | intros _; exact IH].
Qed.

Lemma preserves_gets_bind {A B : Type} (P : cfg -> Prop)
    (f : TranslationController -> A) (k : A -> M B) :
  (forall a, preserves P (k a)) -> preserves P (bind (gets f) k).
Proof.
  intros Hk. apply preserves_bind; [|exact Hk]. intros c Hc. exact Hc.
Qed.

Lemma preserves_streaming (k : nat) (s0 : State) :
  preserves (mode_pair_ok k s0) start_streaming_offboard_points /\
  preserves (mode_pair_ok k s0) stop_streaming_offboard_points.
Proof.
  split; apply preserves_stable; intros c; repeat split.
Qed.

(** After [state_cb] the mode pair agrees with the record, which holds one
    message more at least, however the callback ends. *)
Lemma state_cb_ok (k : nat) (s0 msg : State) (c : cfg) :
  mode_pair_ok k s0 c -> mode_pair_ok (S k) s0 (snd (state_cb msg c)).
Proof.
  intros Hc. unfold state_cb.
  pose proof (update_states_ok k s0 msg c Hc) as H1.
  unfold bind at 1.
  destruct (update_states msg c) as [[[] | e |] c1] eqn:Hu; cbn [snd] in *;
    try exact H1.
  revert c1 H1 Hu. intros c1 H1 _. revert c1 H1.
  change (preserves (mode_pair_ok (S k) s0)
    ((cur <- gets current_state ;;
      when (String.eqb (mode cur) "MANUAL")
        (streaming <- gets offboard_point_streaming ;;
         when streaming stop_streaming_offboard_points)) ;;
     (cur <- gets current_state ;;
      when (String.eqb (mode cur) "POSCTL")
        ((streaming <- gets offboard_point_streaming ;;
          when (negb streaming) start_streaming_offboard_points) ;;
         (prev <- gets prev_state ;;
          when (negb (String.eqb (mode prev) "POSCTL")) hover))) ;;
     (cur <- gets current_state ;;
      when (String.eqb (mode cur) "OFFBOARD")
        (prev <- gets prev_state ;;
         when (negb (String.eqb (mode prev) "OFFBOARD"))
           (mans <- gets maneuvers ;;
            execute_all mans))))).
  destruct (preserves_streaming (S k) s0) as [Hstart Hstop].
  apply preserves_bind.
  { apply preserves_gets_bind. intros cur. apply preserves_when.
    apply preserves_gets_bind. intros st. apply preserves_when. exact Hstop. }
  intros _. apply preserves_bind.
  { apply preserves_gets_bind. intros cur. apply preserves_when.
    apply preserves_bind.
    - apply preserves_gets_bind. intros st. apply preserves_when. exact Hstart.
    - intros _. apply preserves_gets_bind. intros prev. apply preserves_when.
      apply preserves_reset_setpoint. }
  intros _. apply preserves_gets_bind. intros cur. apply preserves_when.
  apply preserves_gets_bind. intros prev. apply preserves_when.
  apply preserves_gets_bind. intros mans. apply preserves_execute_all.
Qed.

Lemma run_callbacks_ok (s0 : State) (msgs : list State) :
  forall (k : nat) (c : cfg),
    mode_pair_ok k s0 c ->
    mode_pair_ok (k + List.length msgs) s0 (run_callbacks msgs c).
Proof.
  induction msgs as [| msg msgs IH]; intros k c Hc; cbn [run_callbacks fold_left].
  - rewrite Nat.add_0_r. exact Hc.
  - cbn [List.length]. rewrite Nat.add_succ_r.
    apply (IH (S k)). apply state_cb_ok. exact Hc.
Qed.

Lemma nth_last_two {A : Type} (d s0 p m : A) (r : list A) :
  nth (List.length (r ++ [p; m])) (s0 :: r ++ [p; m]) d = m /\
  nth (List.length (r ++ [p; m]) - 1) (s0 :: r ++ [p; m]) d = p.
Proof.
  rewrite length_app. cbn [List.length].
  replace (List.length r + 2)%nat with (S (S (List.length r))) by lia.
  cbn [nth Nat.sub]. split.
  - rewrite app_nth2 by lia.
    replace (S (List.length r) - List.length r)%nat with 1%nat by lia. reflexivity.
  - destruct r as [| a r]; [reflexivity|].
    cbn [List.length nth app]. rewrite app_nth2 by lia.
    replace (List.length r - List.length r)%nat with 0%nat by lia. reflexivity.
Qed.

(** C9. Starting from a controller to which no mode update has been applied
    yet, after any non-empty sequence of mode messages handled by
    [state_cb], let N be the number of mode updates applied (those of the
    callbacks and those delivered while maneuvers were executing), numbered
    from 1, with the initial state standing for number 0: N is at least 1,
    [current_state] is the N-th value applied and [prev_state] the
    (N-1)-th.  Each single update stores in [prev_state] the value that
    [current_state] held just before it. *)
Theorem prev_state_tracks_previous_mode (c0 : cfg) (msgs : list State)
    (Hfresh : applied (log c0) = []) (Hne : msgs <> []) :
  let c := run_callbacks msgs c0 in
  let h := current_state (self c0) :: applied (log c) in
  let N := List.length (applied (log c)) in
  (1 <= N)%nat /\
  (List.length msgs <= N)%nat /\
  current_state (self c) = nth N h new_State /\
  prev_state (self c) = nth (N - 1) h new_State /\
  (forall msg c1,
      prev_state (self (snd (update_states msg c1))) = current_state (self c1) /\
      current_state (self (snd (update_states msg c1))) = msg).
Proof.
  intros c h N.
  assert (H0 : mode_pair_ok 0 (current_state (self c0)) c0).
  { unfold mode_pair_ok. rewrite Hfresh. cbn. split; [lia | reflexivity]. }
  pose proof (run_callbacks_ok (current_state (self c0)) msgs 0 c0 H0) as [Hk Hok].
  fold c in Hk, Hok. cbn [Nat.add] in Hk. fold N in Hk.
  assert (Hlen : (1 <= List.length msgs)%nat)
    by (destruct msgs; [contradiction | cbn; lia]).
  split; [lia|]. split; [exact Hk|].
  assert (Hrev : applied (log c) = rev (rev (applied (log c))))
    by (symmetry; apply rev_involutive).
  unfold h, N.
  destruct (rev (applied (log c))) as [| m [| p r]].
  - unfold N in Hk. rewrite Hrev in Hk. cbn in Hk. lia.
  - rewrite Hrev. cbn [rev app List.length nth Nat.sub].
    destruct Hok as [Hc Hp]. split; [exact Hc|]. split; [exact Hp|].
    intros msg c1. split; reflexivity.
  - rewrite Hrev. cbn [rev]. rewrite <- app_assoc. cbn [app].
    destruct Hok as [Hc Hp].
    destruct (nth_last_two new_State (current_state (self c0)) p m (rev r)) as [Hm Hpp].
    rewrite Hm, Hpp. split; [exact Hc|]. split; [exact Hp|].
    intros msg c1. split; reflexivity.
Qed.

Lemma prev_state_tracks_previous_mode_witness :
  let c0 := mkCfg (new_TranslationController []) (mkWorld [] false []) [] in
  let msgs := [posctl; offboard; manual] in
  applied (log c0) = [] /\
  msgs <> [] /\
  applied (log (run_callbacks msgs c0)) = msgs /\
  current_state (self (run_callbacks msgs c0)) = manual /\
  prev_state (self (run_callbacks msgs c0)) = offboard.
Proof.
  intros c0 msgs.
  assert (Hne : msgs <> []) by discriminate.
  split; [reflexivity|]. split; [exact Hne|].
  destruct (prev_state_tracks_previous_mode c0 msgs eq_refl Hne)
    as (_ & _ & Hcur & Hprev & _).
  split; [reflexivity|]. split; [exact Hcur | exact Hprev].
Defined.

(** ** The loop cannot outrun the clock

    [execute_maneuver] gives its loop one turn more than there are clock
    readings left.  Every turn that continues has consumed a reading, so
    the loop never stops for lack of turns: any larger number gives the
    same run. *)

Lemma time_clock (c c1 : cfg) (r : reply R) :
  time c = (r, c1) ->
  (List.length (clock (env c1)) <= List.length (clock (env c)))%nat /\
  (forall t, r = Return t ->
             (List.length (clock (env c1)) < List.length (clock (env c)))%nat).
Proof.
  unfold time. destruct (clock (env c)) as [| t rest] eqn:Hc;
    intros H; inversion H; subst.
  - rewrite Hc. split; [lia | discriminate].
  - cbn. split; [lia | intros; lia].
Qed.

Lemma loop_head_clock (man : instance) (t0 : R) (c c1 : cfg)
    (r : reply (option vector * generator)) :
  loop_head man t0 c = (r, c1) ->
  (List.length (clock (env c1)) <= List.length (clock (env c)))%nat /\
  (forall x, r = Return x ->
             (List.length (clock (env c1)) < List.length (clock (env c)))%nat).
Proof.
  unfold loop_head, bind. intros H.
  destruct (time c) as [[now | e |] c2] eqn:Ht;
    destruct (time_clock _ _ _ Ht) as [Hle Hlt];
    try (inversion H; subst; split; [exact Hle | discriminate]).
  specialize (Hlt now eq_refl).
  unfold lift in H.
  destruct (let? d := getattr man "dur" in as_float d) as [dr | e];
    [| inversion H; subst; split; [lia | discriminate]].
  destruct (ltb (now - t0) dr);
    [| inversion H; subst; split; [lia | intros; lia]].
  destruct (class_of man).
  - destruct (let? v := getattr man "vel_set" in as_list v);
      inversion H; subst; split; (lia || (intros; lia)).
  - destruct (let? v := getattr man "f" in as_func v) as [f | e];
      [| inversion H; subst; split; (lia || (intros; lia))].
    destruct (time c2) as [[t | e |] c3] eqn:Ht2;
      destruct (time_clock _ _ _ Ht2) as [Hle2 _];
      try (inversion H; subst; split; (lia || (intros; lia))).
    destruct (f (t - t0)); inversion H; subst; split; (lia || (intros; lia)).
  - destruct (let? v := getattr man "f" in as_func v) as [f | e];
      [| inversion H; subst; split; (lia || (intros; lia))].
    destruct (time c2) as [[t | e |] c3] eqn:Ht2;
      destruct (time_clock _ _ _ Ht2) as [Hle2 _];
      try (inversion H; subst; split; (lia || (intros; lia))).
    destruct (f (t - t0)); inversion H; subst; split; (lia || (intros; lia)).
Qed.

Lemma next_yield_clock (man : instance) (g g' : generator) (c c1 : cfg)
    (vel : vector) :
  next man g c = (Return (Some vel, g'), c1) ->
  (List.length (clock (env c1)) < List.length (clock (env c)))%nat.
Proof.
  destruct g as [| t0 |]; cbn [next].
  - unfold bind. intros H.
    destruct (time c) as [[t0 | e |] c2] eqn:Ht; try discriminate.
    destruct (time_clock _ _ _ Ht) as [Hle _].
    destruct (loop_head_clock _ _ _ _ _ H) as [_ Hlt].
    specialize (Hlt _ eq_refl). lia.
  - unfold bind, sleep, ret. intros H.
    destruct (loop_head_clock _ _ _ _ _ H) as [_ Hlt].
    exact (Hlt _ eq_refl).
  - unfold ret. discriminate.
Qed.

Lemma loop_body_clock (man : instance) (vel : vector) (g' : generator)
    (c c1 : cfg) (r : reply flow) :
  loop_body man vel g' c = (r, c1) -> clock (env c1) = clock (env c).
Proof.
  unfold loop_body, bind. intros H.
  destruct (write_sample_spec man vel c) as (rw & t & evs & Heq & Hcase).
  rewrite Heq in H.
  destruct Hcase as [[[e ->] _] | [v [-> _]]]; [inversion H; reflexivity|].
  destruct (sample_boundary_spec (with_log (log c ++ Reset :: evs) (with_slot t c)))
    as (s' & w' & evs' & Hb & _ & Hclock & _ & _).
  rewrite Hb in H.
  unfold abort_test, bind, is_shutdown, gets in H.
  destruct (_ || _) in H; inversion H; exact Hclock.
Qed.

Lemma iteration_continue_clock (man : instance) (g g' : generator) (c c1 : cfg) :
  iteration man g c = (Return (Continue g'), c1) ->
  (List.length (clock (env c1)) < List.length (clock (env c)))%nat.
Proof.
  unfold iteration, bind. intros H.
  destruct (next man g c) as [[[[vel |] g0] | e |] c0] eqn:Hn; try discriminate.
  rewrite (loop_body_clock _ _ _ _ _ _ H).
  exact (next_yield_clock _ _ _ _ _ _ Hn).
Qed.

Lemma for_loop_fuel (man : instance) (fuel : nat) :
  forall (fuel' : nat) (g : generator) (c : cfg),
    (List.length (clock (env c)) < fuel)%nat ->
    (List.length (clock (env c)) < fuel')%nat ->
    for_loop fuel man g c = for_loop fuel' man g c.
Proof.
  induction fuel as [| fuel IH]; intros fuel' g c Hf Hf'; [lia|].
  destruct fuel' as [| fuel']; [lia|].
  cbn [for_loop]. unfold bind.
  destruct (iteration man g c) as [[[g1 | |] | e |] c1] eqn:Hit; try reflexivity.
  pose proof (iteration_continue_clock _ _ _ _ _ Hit) as Hlt.
  apply IH; lia.
Qed.

Lemma execute_maneuver_fuel (man : instance) (fuel : nat) (c : cfg) :
  (List.length (clock (env c)) < fuel)%nat ->
  execute_maneuver man c = (for_loop fuel man Created ;; reset_setpoint) c.
Proof.
  intros Hf. unfold execute_maneuver, bind.
  rewrite (for_loop_fuel man (S (List.length (clock (env c)))) fuel Created c)
    by lia.
  reflexivity.
Qed.

(** The mode-transition scenario: a controller in position hold, holding a
    level attitude, is switched to OFFBOARD with the single maneuver
    constant([0, -0.2, 0], 5 s).  The callback returns with the clock read
    to its end, fifty samples written, and the slot back at zero. *)
Lemma posctl_to_offboard_scenario :
  exists c',
    state_cb offboard
      (mkCfg (holding [five_seconds_left]) (mkWorld five_second_clock false []) []) =
      (Return tt, c') /\
    vel_setpoint_bu_lenu__lenu (self c') = new_Twist /\
    wrote_count (log c') = 50%nat /\
    clock (env c') = [] /\
    prev_state (self c') = posctl /\
    current_state (self c') = offboard.
Proof.
  pose proof (execute_maneuver_s_man_completes
                [0; - (2 / 10); 0] 5 default_ref 0 (- 0) (- - (2 / 10)) 0 5
                (map (fun k => INR k / 10) (seq 0 50)) []
                (set_states offboard posctl (holding [five_seconds_left]))
                [ModeUpdate offboard]
                five_second_clock_within
                ltac:(lra) eq_refl
                (get_lenu_velocity_fc_level 0 (- (2 / 10)) 0)) as Hrun.
  eexists. split.
  - unfold state_cb, update_states, when.
    cbn -[execute_maneuver five_second_clock].
    unfold bind, five_second_clock.
    unfold five_seconds_left in Hrun |- *.
    rewrite Hrun. reflexivity.
  - repeat split.
Qed.

(** * Further properties of the code *)

(** ** The table of static rotations *)

Lemma class_attributes_closed :
  StaticTransforms.class_attributes =
  [("R_lenu2lned", [[1; 0; 0; 0]; [0; -1; 0; 0]; [0; 0; -1; 0]; [0; 0; 0; 1]]);
   ("R_bu2bd", [[1; 0; 0; 0]; [0; -1; 0; 0]; [0; 0; -1; 0]; [0; 0; 0; 1]]);
   ("R_dc2bd", [[1; 0; 0; 0]; [0; 1; 0; 0]; [0; 0; 1; 0]; [0; 0; 0; 1]]);
   ("R_fc2bd", [[0; 0; 1; 0]; [1; 0; 0; 0]; [0; 1; 0; 0]; [0; 0; 0; 1]]);
   ("R_lned2lenu", [[1; 0; 0; 0]; [0; -1; 0; 0]; [0; 0; -1; 0]; [0; 0; 0; 1]]);
   ("R_bd2bu", [[1; 0; 0; 0]; [0; -1; 0; 0]; [0; 0; -1; 0]; [0; 0; 0; 1]]);
   ("R_bd2dc", [[1; 0; 0; 0]; [0; 1; 0; 0]; [0; 0; 1; 0]; [0; 0; 0; 1]]);
   ("R_bd2fc", [[0; 1; 0; 0]; [0; 0; 1; 0]; [1; 0; 0; 0]; [0; 0; 0; 1]]);
   ("R_dc2fc", [[0; 1; 0; 0]; [0; 0; 1; 0]; [1; 0; 0; 0]; [0; 0; 0; 1]]);
   ("R_fc2dc", [[0; 0; 1; 0]; [1; 0; 0; 0]; [0; 1; 0; 0]; [0; 0; 0; 1]]);
   ("R_dc2bu", [[1; 0; 0; 0]; [0; -1; 0; 0]; [0; 0; -1; 0]; [0; 0; 0; 1]]);
   ("R_bu2dc", [[1; 0; 0; 0]; [0; -1; 0; 0]; [0; 0; -1; 0]; [0; 0; 0; 1]]);
   ("R_fc2bu", [[0; 0; 1; 0]; [-1; 0; 0; 0]; [0; -1; 0; 0]; [0; 0; 0; 1]]);
   ("R_bu2fc", [[0; -1; 0; 0]; [0; 0; -1; 0]; [1; 0; 0; 0]; [0; 0; 0; 1]])].
Proof.
  unfold StaticTransforms.class_attributes,
    StaticTransforms.R_bu2fc, StaticTransforms.R_fc2bu,
    StaticTransforms.R_bu2dc, StaticTransforms.R_dc2bu,
    StaticTransforms.R_fc2dc, StaticTransforms.R_dc2fc,
    StaticTransforms.R_bd2fc, StaticTransforms.R_bd2dc,
    StaticTransforms.R_bd2bu, StaticTransforms.R_lned2lenu,
    StaticTransforms.R_fc2bd, StaticTransforms.R_dc2bd,
    StaticTransforms.R_bu2bd, StaticTransforms.R_lenu2lned.
  rewrite rotation_matrix_pi_x.
  cbn. repeat (f_equal; try lra).
Qed.

Lemma split2_complete (fin fout : string) :
  In (fin, fout) (split2 (String.append fin (String.append "2" fout))).
Proof.
  induction fin as [| ch fin IH]; cbn [String.append split2].
  - cbn. left. reflexivity.
  - apply in_or_app. right.
    apply (in_map (fun p => (String ch (fst p), snd p)) _ _ IH).
Qed.

(** The name built from two frames determines them, when it is one of the
    names of the table. *)
Lemma R_str_key (fin fout key : string) :
  StaticTransforms.R_str fin fout = String.append "R_" key ->
  In (fin, fout) (split2 key).
Proof.
  unfold StaticTransforms.R_str. cbn [String.append]. intros H.
  injection H as <-. apply split2_complete.
Qed.

Ltac table_case H :=
  match type of H with
  | (if String.eqb ?k ?n then _ else _) = _ =>
      let E := fresh "E" in
      destruct (String.eqb k n) eqn:E;
      [ apply String.eqb_eq in E; symmetry in E; apply R_str_key in E;
        cbn in E;
        repeat match type of E with
               | _ \/ _ => destruct E as [E | E]
               | False => contradiction
               end;
        injection E as <- <-; injection H as <-
      | ]
  end.

Lemma lookup_R_str (fin fout : string) (Rm : matrix) :
  StaticTransforms.lookup (StaticTransforms.R_str fin fout)
    StaticTransforms.class_attributes = Some Rm ->
  fin <> fout /\
  (exists r rs, Rm = r :: rs /\ List.length r = 4%nat) /\
  forall x y z,
    exists w, In (fin, fout, w) (static_table x y z) /\
              np.dot Rm [x; y; z; 0] = Ok (w ++ [0]).
Proof.
  rewrite class_attributes_closed. cbn [StaticTransforms.lookup]. intros H.
  repeat (table_case H;
          [ split; [discriminate|]; split; [eexists; eexists; split; reflexivity|];
            intros x y z; eexists;
            split; [ cbn; auto 20 | cbn; apply f_equal; repeat (f_equal; try lra) ]
          | ]).
  discriminate.
Qed.

Lemma dot_shape (r : list R) (rs : matrix) (u w : vector) :
  np.dot (r :: rs) u = Ok w -> List.length u = List.length r.
Proof.
  unfold np.dot. cbn [forallb].
  destruct (Nat.eqb (List.length r) (List.length u)) eqn:E; cbn [andb].
  - intros _. apply Nat.eqb_eq in E. symmetry. exact E.
  - discriminate.
Qed.

Lemma length_three (v : vector) :
  List.length (v ++ [0]) = 4%nat -> exists x y z, v = [x; y; z].
Proof.
  rewrite length_app. cbn [List.length]. intros H.
  destruct v as [| x [| y [| z [| u v]]]]; cbn in H; try lia.
  exists x, y, z. reflexivity.
Qed.

(** [coord_transform] in closed form: it answers only for vectors of three
    components, and then either the two frames have the same name and the
    vector comes back, or the pair is in the table. *)
Lemma coord_transform_inv (v w : vector) (fin fout : string) :
  StaticTransforms.coord_transform v fin fout = Ok w ->
  exists x y z,
    v = [x; y; z] /\
    ((fin = fout /\ w = [x; y; z]) \/ In (fin, fout, w) (static_table x y z)).
Proof.
  unfold StaticTransforms.coord_transform.
  destruct (String.eqb fin fout) eqn:E.
  - apply String.eqb_eq in E. intros H.
    destruct (np.dot tft.identity_matrix (v ++ [0])) as [u |] eqn:Hd;
      cbn [rbind] in H; [|discriminate].
    pose proof (dot_shape _ _ _ _ Hd) as Hlen. cbn in Hlen.
    destruct (length_three v Hlen) as (x & y & z & ->).
    exists x, y, z. split; [reflexivity|]. left. split; [exact E|].
    cbn in Hd. injection Hd as <-. cbn in H. injection H as <-.
    repeat (f_equal; try lra).
  - destruct (StaticTransforms.lookup _ _) as [Rm |] eqn:Hl; [|discriminate].
    destruct (lookup_R_str fin fout Rm Hl) as (_ & (r & rs & -> & Hr) & Htab).
    intros H.
    destruct (np.dot (r :: rs) (v ++ [0])) as [u |] eqn:Hd;
      cbn [rbind] in H; [|discriminate].
    pose proof (dot_shape _ _ _ _ Hd) as Hlen. rewrite Hr in Hlen.
    destruct (length_three v Hlen) as (x & y & z & ->).
    exists x, y, z. split; [reflexivity|]. right.
    destruct (Htab x y z) as (w' & Hin & Hdot).
    cbn [app] in Hd. rewrite Hdot in Hd. injection Hd as <-.
    injection H as <-.
    assert (Hw : List.length w' = 3%nat).
    { cbn in Hin.
      repeat (destruct Hin as [Hin | Hin];
              [injection Hin as _ _ <-; reflexivity|]).
      contradiction. }
    destruct w' as [| a [| b [| c [| d w']]]]; cbn in Hw; try lia.
    exact Hin.
Qed.

Ltac run_coord_transform :=
  unfold StaticTransforms.coord_transform;
  cbn [String.eqb Ascii.eqb Bool.eqb StaticTransforms.R_str String.append];
  rewrite ?class_attributes_closed;
  cbn; try (apply f_equal; repeat (f_equal; try lra)).

Lemma coord_transform_table (x y z : R) (fin fout : string) (w : vector) :
  In (fin, fout, w) (static_table x y z) ->
  StaticTransforms.coord_transform [x; y; z] fin fout = Ok w.
Proof.
  intros Hin. cbn in Hin.
  repeat (destruct Hin as [Hin | Hin];
          [injection Hin as <- <- <-; run_coord_transform|]).
  contradiction.
Qed.

Lemma coord_transform_same (x y z : R) (fin : string) :
  StaticTransforms.coord_transform [x; y; z] fin fin = Ok [x; y; z].
Proof.
  unfold StaticTransforms.coord_transform. rewrite String.eqb_refl.
  cbn. apply f_equal. repeat (f_equal; try lra).
Qed.

(** X1. Transforming from a frame to the frame of the same name, whatever
    the name is, gives back a vector of three components unchanged and
    raises [ValueError] for a vector of any other length (the shape check
    of the product with the 4x4 identity). *)
Theorem coord_transform_same_frame (fin : string) (v : vector) :
  StaticTransforms.coord_transform v fin fin =
    if Nat.eqb (List.length v) 3 then Ok v
    else Raise (ValueError "shapes not aligned").
Proof.
  destruct v as [| x [| y [| z [| u v]]]];
    try (unfold StaticTransforms.coord_transform; rewrite String.eqb_refl;
         reflexivity).
  - apply coord_transform_same.
  - unfold StaticTransforms.coord_transform. rewrite String.eqb_refl.
    unfold np.dot. cbn [app List.length forallb tft.identity_matrix].
    rewrite length_app. cbn [List.length]. rewrite Nat.add_1_r. reflexivity.
Qed.

(** X2. Round trip: whenever a transform from one frame to another
    succeeds, the transform back succeeds and returns the original vector
    (over the reals). *)
Theorem coord_transform_round_trip (v w : vector) (fin fout : string)
    (Hgo : StaticTransforms.coord_transform v fin fout = Ok w) :
  StaticTransforms.coord_transform w fout fin = Ok v.
Proof.
  destruct (coord_transform_inv v w fin fout Hgo) as (x & y & z & -> & [[<- ->] | Hin]).
  - apply coord_transform_same.
  - cbn in Hin.
    repeat (destruct Hin as [Hin | Hin];
            [injection Hin as <- <- <-; run_coord_transform|]).
    contradiction.
Qed.

Lemma coord_transform_round_trip_witness :
  StaticTransforms.coord_transform [1; 2; 3] "fc" "bu" = Ok [3; - (1); - (2)] /\
  StaticTransforms.coord_transform [3; - (1); - (2)] "bu" "fc" = Ok [1; 2; 3].
Proof.
  assert (Hgo : StaticTransforms.coord_transform [1; 2; 3] "fc" "bu" =
                  Ok [3; - (1); - (2)]).
  { apply coord_transform_table. cbn. auto 20. }
  split; [exact Hgo|].
  exact (coord_transform_round_trip _ _ _ _ Hgo).
Defined.

Lemma coord_transform_inner (v w : vector) (fin fout : string) :
  StaticTransforms.coord_transform v fin fout = Ok w ->
  List.length w = 3%nat /\ np.inner w w = np.inner v v.
Proof.
  intros Hgo.
  destruct (coord_transform_inv v w fin fout Hgo) as (x & y & z & -> & [[_ ->] | Hin]).
  - split; reflexivity.
  - cbn in Hin.
    repeat (destruct Hin as [Hin | Hin];
            [injection Hin as _ _ <-; split; [reflexivity | cbn; ring]|]).
    contradiction.
Qed.

(** X3. Every successful transform is an isometry: the result has three
    components and the Euclidean norm of the input. *)
Theorem coord_transform_preserves_norm (v w : vector) (fin fout : string)
    (Hgo : StaticTransforms.coord_transform v fin fout = Ok w) :
  List.length w = 3%nat /\ np.linalg_norm w = np.linalg_norm v.
Proof.
  destruct (coord_transform_inner v w fin fout Hgo) as [Hlen Hin].
  split; [exact Hlen|]. unfold np.linalg_norm. rewrite Hin. reflexivity.
Qed.

Lemma coord_transform_preserves_norm_witness :
  StaticTransforms.coord_transform [1; 2; 3] "bd" "fc" = Ok [2; 3; 1] /\
  np.linalg_norm [2; 3; 1] = np.linalg_norm [1; 2; 3].
Proof.
  assert (Hgo : StaticTransforms.coord_transform [1; 2; 3] "bd" "fc" = Ok [2; 3; 1]).
  { apply coord_transform_table. cbn. auto 20. }
  split; [exact Hgo|].
  exact (proj2 (coord_transform_preserves_norm _ _ _ _ Hgo)).
Defined.

(** X4. The table is consistent: whenever a transform from A to B and then
    one from B to C succeed, the direct transform from A to C succeeds with
    the same result. *)
Theorem coord_transform_composes (v w u : vector) (fA fB fC : string)
    (Hab : StaticTransforms.coord_transform v fA fB = Ok w)
    (Hbc : StaticTransforms.coord_transform w fB fC = Ok u) :
  StaticTransforms.coord_transform v fA fC = Ok u.
Proof.
  destruct (coord_transform_inv v w fA fB Hab) as (x & y & z & -> & [[<- ->] | Hin]);
    [exact Hbc|].
  destruct (coord_transform_inv w u fB fC Hbc) as (x' & y' & z' & Hw & [[<- ->] | Hin']).
  - rewrite <- Hw. exact Hab.
  - cbn in Hin.
    repeat (destruct Hin as [Hin | Hin];
            [ injection Hin as <- <- <-; injection Hw as <- <- <-; cbn in Hin';
              repeat (destruct Hin' as [Hin' | Hin'];
                      [ try discriminate Hin';
                        injection Hin' as <- <-; run_coord_transform |]);
              contradiction
            |]).
    contradiction.
Qed.

Lemma coord_transform_composes_witness :
  StaticTransforms.coord_transform [1; 2; 3] "dc" "bd" = Ok [1; 2; 3] /\
  StaticTransforms.coord_transform [1; 2; 3] "bd" "fc" = Ok [2; 3; 1] /\
  StaticTransforms.coord_transform [1; 2; 3] "dc" "fc" = Ok [2; 3; 1].
Proof.
  assert (Hab : StaticTransforms.coord_transform [1; 2; 3] "dc" "bd" = Ok [1; 2; 3]).
  { apply coord_transform_table. cbn. auto 20. }
  assert (Hbc : StaticTransforms.coord_transform [1; 2; 3] "bd" "fc" = Ok [2; 3; 1]).
  { apply coord_transform_table. cbn. auto 20. }
  split; [exact Hab|]. split; [exact Hbc|].
  exact (coord_transform_composes _ _ _ _ _ _ Hab Hbc).
Defined.

(** X5. The table joins the four body frames with one another and the two
    world frames with each other, and nothing else: between two body
    frames, or two world frames, a vector of three components always
    transforms; from a body frame to a world frame, or back, every
    transform raises [AttributeError], whatever the vector. *)
Theorem coord_transform_families (fin fout : string)
    (Hfin : In fin (body_frames ++ world_frames))
    (Hfout : In fout (body_frames ++ world_frames)) :
  (forall x y z,
      (In fin body_frames /\ In fout body_frames) \/
      (In fin world_frames /\ In fout world_frames) ->
      exists w, StaticTransforms.coord_transform [x; y; z] fin fout = Ok w) /\
  (forall v,
      (In fin body_frames /\ In fout world_frames) \/
      (In fin world_frames /\ In fout body_frames) ->
      StaticTransforms.coord_transform v fin fout =
        Raise (AttributeError (StaticTransforms.no_transform_message fin fout))).
Proof.
  cbn in Hfin, Hfout.
  repeat (destruct Hfin as [<- | Hfin]); try contradiction;
    repeat (destruct Hfout as [<- | Hfout]); try contradiction;
    (split;
     [ intros x y z [[H1 H2] | [H1 H2]]; cbn in H1, H2;
       try (repeat (destruct H1 as [H1 | H1]; try discriminate H1); contradiction);
       try (repeat (destruct H2 as [H2 | H2]; try discriminate H2); contradiction);
       eexists; run_coord_transform; reflexivity
     | intros v [[H1 H2] | [H1 H2]]; cbn in H1, H2;
       try (repeat (destruct H1 as [H1 | H1]; try discriminate H1); contradiction);
       try (repeat (destruct H2 as [H2 | H2]; try discriminate H2); contradiction);
       unfold StaticTransforms.coord_transform;
       cbn [String.eqb Ascii.eqb Bool.eqb StaticTransforms.R_str String.append];
       rewrite class_attributes_closed; reflexivity ]).
Qed.

Lemma coord_transform_families_witness :
  In "fc" (body_frames ++ world_frames) /\
  In "lenu" (body_frames ++ world_frames) /\
  StaticTransforms.coord_transform [1; 2; 3] "fc" "lenu" =
    Raise (AttributeError
             "No static transform exists from fc to lenu. Are you sure these frames are not moving relative to each other?").
Proof.
  assert (H1 : In "fc" (body_frames ++ world_frames)) by (cbn; auto 10).
  assert (H2 : In "lenu" (body_frames ++ world_frames)) by (cbn; auto 10).
  split; [exact H1|]. split; [exact H2|].
  apply (proj2 (coord_transform_families "fc" "lenu" H1 H2) [1; 2; 3]).
  left. split; cbn; auto 10.
Defined.

(** ** Transforms through the attitude *)

Lemma EPS_pos : 0 < tft._EPS.
Proof.
  unfold tft._EPS.
  assert (Hp : 0 < 2 ^ 52) by (apply pow_lt; lra).
  apply Rmult_lt_0_compat; [apply Rinv_0_lt_compat; exact Hp | lra].
Qed.

(** The rotation of a quaternion (a, b, c, d) with squared norm [nq] not
    below the threshold, in closed form: the scale is [k = 2 / nq]. *)
Lemma quaternion_matrix_closed (a b c d : R) :
  let nq := a * a + (b * b + (c * c + (d * d + 0))) in
  let k := 2 / nq in
  ~ nq < tft._EPS ->
  tft.quaternion_matrix (Some [a; b; c; d]) =
    Ok [[1 - b * b * k - c * c * k; a * b * k - c * d * k; a * c * k + b * d * k; 0];
        [a * b * k + c * d * k; 1 - a * a * k - c * c * k; b * c * k - a * d * k; 0];
        [a * c * k - b * d * k; b * c * k + a * d * k; 1 - a * a * k - b * b * k; 0];
        [0; 0; 0; 1]].
Proof.
  intros nq k Hnq.
  unfold tft.quaternion_matrix. cbn [firstn np.inner]. fold nq.
  rewrite (ltb_false _ _ Hnq). cbn [map].
  assert (Hpos : 0 < nq) by (pose proof EPS_pos; lra).
  assert (Hs : sqrt (2 / nq) * sqrt (2 / nq) = k).
  { apply sqrt_sqrt. unfold Rdiv. apply Rmult_le_pos; [lra|].
    left. apply Rinv_0_lt_compat. exact Hpos. }
  fold k in Hs |- *. generalize dependent (sqrt k). intros s Hs.
  apply f_equal. repeat (f_equal; try ring [Hs]).
Qed.

(** The rotation of any quaternion of four components keeps the inner
    product of a vector with itself. *)
Lemma quaternion_rotation_inner (a b c d x y z : R) :
  exists Rq w4,
    tft.quaternion_matrix (Some [a; b; c; d]) = Ok Rq /\
    np.dot Rq [x; y; z; 0] = Ok w4 /\
    List.length (firstn 3 w4) = 3%nat /\
    np.inner (firstn 3 w4) (firstn 3 w4) = np.inner [x; y; z] [x; y; z].
Proof.
  destruct (Rlt_dec (a * a + (b * b + (c * c + (d * d + 0)))) tft._EPS) as [Hlt | Hge].
  - exists tft.identity_matrix. eexists.
    split.
    { unfold tft.quaternion_matrix. cbn [firstn np.inner].
      rewrite (ltb_true _ _ Hlt). reflexivity. }
    split; [cbn; reflexivity|]. split; [reflexivity|]. cbn. ring.
  - rewrite (quaternion_matrix_closed a b c d Hge).
    eexists. eexists. split; [reflexivity|].
    split; [cbn; reflexivity|]. split; [reflexivity|].
    cbn.
    assert (Hpos : 0 < a * a + (b * b + (c * c + (d * d + 0))))
      by (pose proof EPS_pos; lra).
    field. lra.
Qed.

Lemma get_lenu_velocity_body (a b c d x y z : R) (fin : string) (v1 : vector) :
  String.eqb fin "lenu" = false -> String.eqb fin "lned" = false ->
  StaticTransforms.coord_transform [x; y; z] fin "bu" = Ok v1 ->
  exists w,
    get_lenu_velocity (Some [a; b; c; d]) [x; y; z] fin = Ok w /\
    List.length w = 3%nat /\
    np.inner w w = np.inner [x; y; z] [x; y; z].
Proof.
  intros H1 H2 Hct.
  destruct (coord_transform_inner _ _ _ _ Hct) as [Hlen Hin].
  destruct v1 as [| x1 [| y1 [| z1 [| u v1]]]]; cbn in Hlen; try lia.
  destruct (quaternion_rotation_inner a b c d x1 y1 z1)
    as (Rq & w4 & Hq & Hd & Hl & Hi).
  exists (firstn 3 w4).
  unfold get_lenu_velocity. rewrite H1, H2, Hq. cbn [rbind].
  rewrite Hct. cbn [rbind app]. rewrite Hd. cbn [rbind].
  split; [reflexivity|]. split; [exact Hl|]. rewrite Hi. exact Hin.
Qed.

(** X6. Once a pose message has been handled, a sample of three components
    given in any of the six frames transforms to local ENU without error,
    whatever the orientation in the message (normalised or not): the
    result has three components and the Euclidean norm of the sample. *)
Theorem get_lenu_velocity_with_pose (q : Quaternion) (c : cfg) (fin : string)
    (x y z : R) (Hfin : In fin (body_frames ++ world_frames)) :
  let c' := snd (pose_sub_cb q c) in
  q_bu_lenu (self c') = Some [qx q; qy q; qz q; qw q] /\
  exists w,
    get_lenu_velocity (q_bu_lenu (self c')) [x; y; z] fin = Ok w /\
    List.length w = 3%nat /\
    np.linalg_norm w = np.linalg_norm [x; y; z].
Proof.
  intros c'. split; [reflexivity|].
  cbn [c' pose_sub_cb modify snd self q_bu_lenu set_q_bu_lenu].
  assert (H : exists w,
             get_lenu_velocity (Some [qx q; qy q; qz q; qw q]) [x; y; z] fin = Ok w /\
             List.length w = 3%nat /\
             np.inner w w = np.inner [x; y; z] [x; y; z]).
  { cbn in Hfin.
    destruct Hfin as [<- | [<- | [<- | [<- | [<- | [<- | []]]]]]].
    - apply (get_lenu_velocity_body _ _ _ _ _ _ _ "bu" [x; y; z]);
        [reflexivity | reflexivity | apply coord_transform_same].
    - apply (get_lenu_velocity_body _ _ _ _ _ _ _ "bd" [x; - y; - z]);
        [reflexivity | reflexivity | apply coord_transform_table; cbn; auto 20].
    - apply (get_lenu_velocity_body _ _ _ _ _ _ _ "dc" [x; - y; - z]);
        [reflexivity | reflexivity | apply coord_transform_table; cbn; auto 20].
    - apply (get_lenu_velocity_body _ _ _ _ _ _ _ "fc" [z; - x; - y]);
        [reflexivity | reflexivity | apply coord_transform_table; cbn; auto 20].
    - exists [x; y; z]. split; [reflexivity|]. split; reflexivity.
    - exists [x; - y; - z]. split; [|split; [reflexivity | cbn; ring]].
      unfold get_lenu_velocity. cbn [String.eqb Ascii.eqb Bool.eqb].
      rewrite (coord_transform_table x y z "lned" "lenu" [x; - y; - z])
        by (cbn; auto 20).
      reflexivity. }
  destruct H as (w & Hw & Hlen & Hin).
  exists w. split; [exact Hw|]. split; [exact Hlen|].
  unfold np.linalg_norm. rewrite Hin. reflexivity.
Qed.

Lemma get_lenu_velocity_with_pose_witness :
  In "fc" (body_frames ++ world_frames) /\
  exists w,
    get_lenu_velocity
      (q_bu_lenu (self (snd (pose_sub_cb (mkQuaternion 0 0 1 1)
                               (mkCfg (new_TranslationController [])
                                  (mkWorld [] false []) [])))))
      [0; - (2 / 10); 0] "fc" = Ok w /\
    np.linalg_norm w = np.linalg_norm [0; - (2 / 10); 0].
Proof.
  assert (H : In "fc" (body_frames ++ world_frames)) by (cbn; auto 10).
  split; [exact H|].
  destruct (get_lenu_velocity_with_pose (mkQuaternion 0 0 1 1)
              (mkCfg (new_TranslationController []) (mkWorld [] false []) [])
              "fc" 0 (- (2 / 10)) 0 H) as (_ & w & Hw & _ & Hn).
  exists w. split; [exact Hw | exact Hn].
Defined.

(** ** Edge cases of maneuver execution *)

(** X7. A constant maneuver in the local ENU frame whose velocity has fewer
    than three components is not rejected when it is constructed: its
    first sample is pulled, the components that exist are written to the
    slot, and reading the missing one raises [IndexError], which ends
    [execute_maneuver] and the loop over the list.  The slot is left
    holding the partly written setpoint, not zero. *)
Theorem short_sample_leaves_partial_setpoint (vel : vector) (dur : R)
    (s : TranslationController) (t0 t : R) (rest : list R)
    (dn : bool) (bs : list boundary) (lg : list event)
    (Hlen : (List.length vel < 3)%nat) (Hdur : t - t0 < dur) :
  let man := s_man vel dur "lenu" in
  let c := mkCfg s (mkWorld (t0 :: t :: rest) dn bs) lg in
  let c' := mkCfg (set_vel_setpoint (twist_of (nth 0 vel 0) (nth 1 vel 0) 0) s)
              (mkWorld rest dn bs) (lg ++ [Reset]) in
  execute_maneuver man c = (Throw (IndexError "index out of bounds"), c') /\
  forall others,
    execute_all (man :: others) c = (Throw (IndexError "index out of bounds"), c').
Proof.
  intros man c c'.
  assert (Hex : execute_maneuver man c =
                  (Throw (IndexError "index out of bounds"), c')).
  { unfold execute_maneuver, man, c. cbn [for_loop]. unfold iteration, bind.
    rewrite next_s_man_created, (ltb_true _ _ Hdur).
    unfold loop_body, bind, c'.
    destruct vel as [| a [| b [| d vel]]]; cbn in Hlen; try lia;
      unfold write_sample, reset_setpoint, bind, record; cbn;
      rewrite ?app_nil_r; reflexivity. }
  split; [exact Hex|].
  intros others. cbn [execute_all]. unfold bind. rewrite Hex. reflexivity.
Qed.

Lemma short_sample_leaves_partial_setpoint_witness :
  (List.length [2 / 10; 1 / 10] < 3)%nat /\
  0 - 0 < 5 /\
  execute_maneuver (s_man [2 / 10; 1 / 10] 5 "lenu")
    (mkCfg (set_states offboard posctl (holding []))
       (mkWorld [0; 0; 1] false []) []) =
  (Throw (IndexError "index out of bounds"),
   mkCfg (set_vel_setpoint (twist_of (2 / 10) (1 / 10) 0)
            (set_states offboard posctl (holding [])))
     (mkWorld [1] false []) [Reset]).
Proof.
  assert (H1 : (List.length [2 / 10; 1 / 10] < 3)%nat) by (cbn; lia).
  assert (H2 : 0 - 0 < 5) by lra.
  split; [exact H1|]. split; [exact H2|].
  exact (proj1 (short_sample_leaves_partial_setpoint [2 / 10; 1 / 10] 5
                  (set_states offboard posctl (holding []))
                  0 0 [1] false [] [] H1 H2)).
Defined.

(** X8. A constant or smooth-line maneuver whose duration is zero or
    negative yields no sample when the clock does not run backwards:
    [execute_maneuver] reads the clock twice, writes nothing, resets the
    slot and returns, whatever the frame, the pose and the mode are. *)
Theorem non_positive_duration_yields_nothing (man : instance) (dur : R)
    (s : TranslationController) (t0 t : R) (rest : list R)
    (dn : bool) (bs : list boundary) (lg : list event)
    (Hattr : getattr man "dur" = Ok (VFloat dur))
    (Hdur : dur <= 0) (Hclock : t0 <= t) :
  execute_maneuver man (mkCfg s (mkWorld (t0 :: t :: rest) dn bs) lg) =
    (Return tt,
     mkCfg (set_vel_setpoint new_Twist s) (mkWorld rest dn bs) (lg ++ [Reset])) /\
  (forall vel ref, getattr (s_man vel dur ref) "dur" = Ok (VFloat dur)) /\
  (forall disp ref, getattr (line_man disp dur ref) "dur" = Ok (VFloat dur)).
Proof.
  split; [|split; reflexivity].
  unfold execute_maneuver. cbn [for_loop]. unfold iteration, next, loop_head, bind.
  cbn [time lift ret self env log clock down boundaries].
  rewrite Hattr. cbn [rbind as_float lift].
  rewrite ltb_false by lra. reflexivity.
Qed.

Lemma non_positive_duration_yields_nothing_witness :
  getattr (line_man [0; -1; 0] 0 "fc") "dur" = Ok (VFloat 0) /\
  0 <= 0 /\ 3 <= 4 /\
  execute_maneuver (line_man [0; -1; 0] 0 "fc")
    (mkCfg (new_TranslationController []) (mkWorld [3; 4; 5] false []) []) =
  (Return tt,
   mkCfg (set_vel_setpoint new_Twist (new_TranslationController []))
     (mkWorld [5] false []) [Reset]).
Proof.
  assert (H1 : 0 <= 0) by lra.
  assert (H2 : 3 <= 4) by lra.
  split; [reflexivity|]. split; [exact H1|]. split; [exact H2|].
  exact (proj1 (non_positive_duration_yields_nothing (line_man [0; -1; 0] 0 "fc") 0
                  (new_TranslationController []) 3 4 [5] false [] []
                  eq_refl H1 H2)).
Defined.

Lemma wrote_count_samples (man : instance) (w : vector) (ts : list R) :
  wrote_count (concat (map (fun _ => [Reset; Wrote man w]) ts)) = List.length ts.
Proof.
  induction ts as [| t ts IH]; [reflexivity|].
  cbn [map concat]. rewrite wrote_count_app, IH. reflexivity.
Qed.

(** X9. A constant maneuver whose velocity transforms to (a, b, d), run
    while the mode stays OFFBOARD and ROS is not shutting down: if the
    clock readings after the start are first within the duration and then
    one reaches it, the maneuver returns having written the same
    transformed sample once per reading within the duration, each write
    preceded by a reset of the slot, and leaves the slot at zero and the
    rest of the clock unread. *)
Theorem constant_maneuver_sample_count (vel : vector) (dur : R) (ref : string)
    (a b d t0 tend : R) (ts rest : list R)
    (s : TranslationController) (lg : list event)
    (Hts : Forall (fun t => t - t0 < dur) ts)
    (Hend : ~ tend - t0 < dur)
    (Hmode : mode (current_state s) = "OFFBOARD")
    (Htr : get_lenu_velocity (q_bu_lenu s) vel ref = Ok [a; b; d]) :
  let man := s_man vel dur ref in
  exists c',
    execute_maneuver man (mkCfg s (mkWorld (t0 :: ts ++ tend :: rest) false []) lg) =
      (Return tt, c') /\
    log c' = lg ++ concat (map (fun _ => [Reset; Wrote man [a; b; d]]) ts) ++ [Reset] /\
    wrote_count (log c') = (wrote_count lg + List.length ts)%nat /\
    clock (env c') = rest /\
    vel_setpoint_bu_lenu__lenu (self c') = new_Twist.
Proof.
  intros man. eexists. split.
  - apply execute_maneuver_s_man_completes; eassumption.
  - cbn [log env clock self]. split; [reflexivity|].
    split; [|split; reflexivity].
    rewrite !wrote_count_app, wrote_count_samples. cbn. lia.
Qed.

Lemma constant_maneuver_sample_count_witness :
  Forall (fun t => t - 0 < 5) (map (fun k => INR k / 10) (seq 0 50)) /\
  ~ 5 - 0 < 5 /\
  exists c',
    execute_maneuver go_south
      (mkCfg (set_states offboard posctl (fresh_holding [go_south]))
         (mkWorld five_second_clock false []) []) = (Return tt, c') /\
    wrote_count (log c') = 50%nat.
Proof.
  assert (Hend : ~ 5 - 0 < 5) by lra.
  split; [exact five_second_clock_within|]. split; [exact Hend|].
  destruct (constant_maneuver_sample_count [0; - (2 / 10); 0] 5 "lenu"
              0 (- (2 / 10)) 0 0 5 (map (fun k => INR k / 10) (seq 0 50)) []
              (set_states offboard posctl (fresh_holding [go_south])) []
              five_second_clock_within Hend eq_refl eq_refl)
    as (c' & Hex & _ & Hcnt & _).
  exists c'. split; [exact Hex | exact Hcnt].
Defined.

(** ** Speed of a smooth-line maneuver *)

Lemma inner_nonneg (v : vector) : 0 <= np.inner v v.
Proof.
  induction v as [| a v IH]; cbn [np.inner]; [lra|].
  pose proof (Rle_0_sqr a) as Ha. unfold Rsqr in Ha. lra.
Qed.

Lemma inner_scale (k : R) (v : vector) :
  np.inner (map (Rmult k) v) (map (Rmult k) v) = k * k * np.inner v v.
Proof.
  induction v as [| a v IH]; cbn [map np.inner]; [ring|].
  rewrite IH. ring.
Qed.

Lemma norm_scale (k : R) (v : vector) :
  np.linalg_norm (map (Rmult k) v) = Rabs k * np.linalg_norm v.
Proof.
  unfold np.linalg_norm. rewrite inner_scale.
  rewrite sqrt_mult; [| pose proof (Rle_0_sqr k) as H; unfold Rsqr in H; exact H
                      | apply inner_nonneg].
  change (k * k) with (Rsqr k). rewrite sqrt_Rsqr_abs. reflexivity.
Qed.

(** The profile is the displacement scaled by a factor that depends on the
    time only. *)
Lemma parametric_scale (disp : vector) (dur t : R) :
  dur <> 0 ->
  parametric disp dur t = Ok (map (Rmult (6 * t * (dur - t) / dur ^ 3)) disp).
Proof.
  intros Hdur. rewrite (parametric_total disp dur t Hdur). f_equal.
  apply map_ext. intros d. unfold closed_form. field. exact Hdur.
Qed.

Lemma scale_bounds (dur t : R) :
  0 < dur -> 0 <= t <= dur ->
  0 <= 6 * t * (dur - t) / dur ^ 3 <= 3 / 2 / dur.
Proof.
  intros Hdur [H0 H1].
  assert (Hp : 0 < dur ^ 3) by (apply pow_lt; exact Hdur).
  split.
  - apply Rmult_le_pos; [|left; apply Rinv_0_lt_compat; exact Hp].
    apply Rmult_le_pos; [lra | lra].
  - apply (Rmult_le_reg_r (dur ^ 3)); [exact Hp|].
    replace (6 * t * (dur - t) / dur ^ 3 * dur ^ 3) with (6 * t * (dur - t))
      by (field; lra).
    replace (3 / 2 / dur * dur ^ 3) with (3 / 2 * (dur * dur)) by (field; lra).
    pose proof (Rle_0_sqr (dur - 2 * t)) as Hs. unfold Rsqr in Hs. lra.
Qed.

(** X10. For a smooth-line maneuver with duration [dur] > 0, at every
    elapsed time in [0, dur]: the sample is the displacement scaled by a
    factor between 0 and 3/(2 dur), so no component reverses, the speed is
    at most 1.5 times the mean speed |disp| / dur, and this bound is met at
    half time.  Hence, when 1.5 |disp| / dur is within [MAX_SPEED], a
    setpoint of the same norm as the sample is published unchanged by the
    streaming loop. *)
Theorem line_man_speed_bound (disp : vector) (dur t : R)
    (Hdur : 0 < dur) (Ht : 0 <= t <= dur) :
  exists vel,
    parametric disp dur t = Ok vel /\
    Forall2 (fun d v => 0 <= d * v /\ Rabs v <= 3 / 2 * Rabs d / dur) disp vel /\
    np.linalg_norm vel <= 3 / 2 * np.linalg_norm disp / dur /\
    parametric disp dur (dur / 2) = Ok (map (fun d => 3 / 2 * d / dur) disp) /\
    (forall a b c,
        3 / 2 * np.linalg_norm disp / dur <= Constants.MAX_SPEED ->
        np.linalg_norm [a; b; c] = np.linalg_norm vel ->
        publish_limited (twist_of a b c) = Ok (twist_of a b c)).
Proof.
  pose proof (scale_bounds dur t Hdur Ht) as [Hk0 Hk1].
  set (k := 6 * t * (dur - t) / dur ^ 3) in *.
  assert (Hne : dur <> 0) by lra.
  exists (map (Rmult k) disp).
  assert (Hnorm : np.linalg_norm (map (Rmult k) disp) <=
                    3 / 2 * np.linalg_norm disp / dur).
  { rewrite norm_scale, (Rabs_pos_eq k Hk0).
    assert (Hn : 0 <= np.linalg_norm disp) by apply sqrt_pos.
    replace (3 / 2 * np.linalg_norm disp / dur)
      with (3 / 2 / dur * np.linalg_norm disp) by (field; lra).
    apply Rmult_le_compat_r; assumption. }
  split; [apply parametric_scale; exact Hne|].
  split.
  { clear Hnorm.
    induction disp as [| d disp IH]; cbn [map]; [constructor|].
    constructor; [|exact IH].
    split.
    - replace (d * (k * d)) with (k * (d * d)) by ring.
      apply Rmult_le_pos; [exact Hk0|].
      pose proof (Rle_0_sqr d) as Hd. unfold Rsqr in Hd. exact Hd.
    - rewrite Rabs_mult, (Rabs_pos_eq k Hk0).
      replace (3 / 2 * Rabs d / dur) with (3 / 2 / dur * Rabs d) by (field; lra).
      apply Rmult_le_compat_r; [apply Rabs_pos | exact Hk1]. }
  split; [exact Hnorm|].
  split.
  { rewrite (parametric_total disp dur (dur / 2) Hne). f_equal.
    apply map_ext. intros d. unfold closed_form. field. exact Hne. }
  intros a b c Hmax Heq.
  apply publish_limited_within.
  unfold slot_speed, twist_of. cbn [linear x y z].
  rewrite Heq. lra.
Qed.

Lemma line_man_speed_bound_witness :
  0 < 5 /\ 0 <= 1 <= 5 /\
  exists vel,
    parametric [0; -1; 0] 5 1 = Ok vel /\
    np.linalg_norm vel <= 3 / 2 * np.linalg_norm [0; -1; 0] / 5.
Proof.
  assert (H5 : 0 < 5) by lra.
  assert (H1 : 0 <= 1 <= 5) by lra.
  split; [exact H5|]. split; [exact H1|].
  destruct (line_man_speed_bound [0; -1; 0] 5 1 H5 H1) as (vel & Hv & _ & Hn & _).
  exists vel. split; [exact Hv | exact Hn].
Defined.

(** X11. The generator of a smooth-line maneuver tests the elapsed time on
    one reading of the clock and evaluates the profile on the next one.
    When the first reading is within the duration and the second one past
    it, a sample is still yielded, and it points against the displacement:
    every component has the sign opposite to that of the displacement. *)
Theorem line_man_sample_after_end (disp : vector) (dur : R) (ref : string)
    (s : TranslationController) (t0 t1 t2 : R) (rest : list R)
    (dn : bool) (bs : list boundary) (lg : list event)
    (Hdur : 0 < dur) (H1 : t1 - t0 < dur) (H2 : dur < t2 - t0) :
  exists vel,
    next (line_man disp dur ref) (Suspended t0)
      (mkCfg s (mkWorld (t1 :: t2 :: rest) dn bs) lg) =
      (Return (Some vel, Suspended t0), mkCfg s (mkWorld rest dn bs) lg) /\
    Forall2 (fun d v => d * v <= 0 /\ (d <> 0 -> d * v < 0)) disp vel.
Proof.
  assert (Hne : dur <> 0) by lra.
  exists (map (fun d => closed_form d dur (t2 - t0)) disp). split.
  - unfold next, loop_head, sleep, bind.
    cbn [ret time lift self env log clock down boundaries getattr line_man dict
         StaticTransforms.lookup String.eqb Ascii.eqb Bool.eqb rbind as_float
         as_func class_of].
    rewrite (ltb_true _ _ H1).
    cbn [time self env log clock down boundaries].
    rewrite (parametric_total disp dur (t2 - t0) Hne). reflexivity.
  - assert (Hp : 0 < dur ^ 3) by (apply pow_lt; exact Hdur).
    assert (Hk : 0 < 6 * ((t2 - t0) * (t2 - t0 - dur)) / dur ^ 3).
    { apply Rmult_lt_0_compat; [|apply Rinv_0_lt_compat; exact Hp].
      apply Rmult_lt_0_compat; [lra|]. apply Rmult_lt_0_compat; lra. }
    set (k := 6 * ((t2 - t0) * (t2 - t0 - dur)) / dur ^ 3) in Hk.
    induction disp as [| d disp IH]; cbn [map]; [constructor|].
    constructor; [|exact IH].
    assert (Hd : d * closed_form d dur (t2 - t0) = - (k * (d * d)))
      by (unfold closed_form, k; field; exact Hne).
    rewrite Hd.
    pose proof (Rle_0_sqr d) as Hsq. unfold Rsqr in Hsq.
    split.
    + assert (0 <= k * (d * d)) by (apply Rmult_le_pos; lra). lra.
    + intros Hd0.
      assert (0 < d * d).
      { destruct (Rtotal_order d 0) as [Hn | [Hz | Hpz]]; [|contradiction|].
        - replace (d * d) with ((- d) * (- d)) by ring.
          apply Rmult_lt_0_compat; lra.
        - apply Rmult_lt_0_compat; lra. }
      assert (0 < k * (d * d)) by (apply Rmult_lt_0_compat; lra). lra.
Qed.

Lemma line_man_sample_after_end_witness :
  0 < 5 /\ 49 / 10 - 0 < 5 /\ 5 < 51 / 10 - 0 /\
  exists vel,
    next (line_man [0; -1; 0] 5 "fc") (Suspended 0)
      (mkCfg (new_TranslationController []) (mkWorld [49 / 10; 51 / 10] false []) []) =
      (Return (Some vel, Suspended 0),
       mkCfg (new_TranslationController []) (mkWorld [] false []) []) /\
    Forall2 (fun d v => d * v <= 0 /\ (d <> 0 -> d * v < 0)) [0; -1; 0] vel.
Proof.
  assert (H5 : 0 < 5) by lra.
  assert (H1 : 49 / 10 - 0 < 5) by lra.
  assert (H2 : 5 < 51 / 10 - 0) by lra.
  split; [exact H5|]. split; [exact H1|]. split; [exact H2|].
  exact (line_man_sample_after_end [0; -1; 0] 5 "fc" (new_TranslationController [])
           0 (49 / 10) (51 / 10) [] false [] [] H5 H1 H2).
Defined.

(** ** What [state_cb] does, mode by mode *)

Lemma set_streaming_same (s : TranslationController) :
  set_streaming (offboard_point_streaming s) (offboard_point_streaming_thread s) s = s.
Proof. destruct s; reflexivity. Qed.

(** X12. A MANUAL mode message turns streaming off, whether or not it was
    on, and does nothing else besides recording the mode: the callback
    returns without reading the clock, and the setpoint slot keeps the
    value it had. *)
Theorem state_cb_manual (msg : State) (c : cfg) (Hmode : mode msg = "MANUAL") :
  state_cb msg c =
    (Return tt,
     mkCfg (set_streaming false (offboard_point_streaming_thread (self c))
              (set_states msg (current_state (self c)) (self c)))
       (env c) (log c ++ [ModeUpdate msg])) /\
  offboard_point_streaming (self (snd (state_cb msg c))) = false /\
  vel_setpoint_bu_lenu__lenu (self (snd (state_cb msg c))) =
    vel_setpoint_bu_lenu__lenu (self c).
Proof.
  assert (H : state_cb msg c =
    (Return tt,
     mkCfg (set_streaming false (offboard_point_streaming_thread (self c))
              (set_states msg (current_state (self c)) (self c)))
       (env c) (log c ++ [ModeUpdate msg]))).
  { destruct c as [[slot cur prev q st th mans] w lg].
    unfold state_cb, update_states, when, stop_streaming_offboard_points, bind.
    cbn. rewrite Hmode. cbn.
    destruct st; do 4 (cbn; rewrite ?Hmode); reflexivity. }
  split; [exact H|]. rewrite H. split; reflexivity.
Qed.

Lemma state_cb_manual_witness :
  mode manual = "MANUAL" /\
  offboard_point_streaming
    (self (snd (state_cb manual
                  (mkCfg (holding [go_south]) (mkWorld [0; 1] false []) [])))) = false.
Proof.
  split; [reflexivity|].
  exact (proj1 (proj2 (state_cb_manual manual
                         (mkCfg (holding [go_south]) (mkWorld [0; 1] false []) [])
                         eq_refl))).
Defined.

(** X13. A POSCTL mode message leaves streaming on, starting it when it was
    off, and resets the slot to zero exactly when the mode before was not
    POSCTL: a repeated POSCTL message leaves the slot as it is.  The
    callback returns without reading the clock. *)
Theorem state_cb_posctl (msg : State) (c : cfg) (Hmode : mode msg = "POSCTL") :
  let fresh := negb (String.eqb (mode (current_state (self c))) "POSCTL") in
  let c' := snd (state_cb msg c) in
  fst (state_cb msg c) = Return tt /\
  offboard_point_streaming (self c') = true /\
  offboard_point_streaming_thread (self c') =
    (if offboard_point_streaming (self c)
     then offboard_point_streaming_thread (self c) else Some tt) /\
  vel_setpoint_bu_lenu__lenu (self c') =
    (if fresh then new_Twist else vel_setpoint_bu_lenu__lenu (self c)) /\
  log c' = log c ++ ModeUpdate msg :: (if fresh then [Reset] else []) /\
  env c' = env c /\
  current_state (self c') = msg /\
  prev_state (self c') = current_state (self c).
Proof.
  intros fresh c'. unfold c', fresh.
  destruct c as [[slot cur prev q st th mans] w lg].
  unfold state_cb, update_states, when, start_streaming_offboard_points,
    hover, reset_setpoint, bind.
  destruct st; destruct (String.eqb (mode cur) "POSCTL") eqn:Hp;
    do 5 (cbn; rewrite ?Hmode, ?Hp); rewrite <- ?app_assoc;
    repeat split; reflexivity.
Qed.

Lemma state_cb_posctl_witness :
  mode posctl = "POSCTL" /\
  vel_setpoint_bu_lenu__lenu
    (self (snd (state_cb posctl
                  (mkCfg (set_vel_setpoint (twist_of 1 0 0) (holding []))
                     (mkWorld [] false []) [])))) = twist_of 1 0 0 /\
  vel_setpoint_bu_lenu__lenu
    (self (snd (state_cb posctl
                  (mkCfg (set_vel_setpoint (twist_of 1 0 0)
                            (new_TranslationController []))
                     (mkWorld [] false []) [])))) = new_Twist.
Proof.
  split; [reflexivity|]. split.
  - exact (proj1 (proj2 (proj2 (proj2 (state_cb_posctl posctl
             (mkCfg (set_vel_setpoint (twist_of 1 0 0) (holding []))
                (mkWorld [] false []) []) eq_refl))))).
  - exact (proj1 (proj2 (proj2 (proj2 (state_cb_posctl posctl
             (mkCfg (set_vel_setpoint (twist_of 1 0 0) (new_TranslationController []))
                (mkWorld [] false []) []) eq_refl))))).
Defined.

(** X14. Maneuvers are executed on a fresh entry into OFFBOARD and at no
    other time.  For a mode message that is neither MANUAL nor POSCTL: if
    its mode is OFFBOARD and the mode before was not, [state_cb] records
    the mode and then does what executing the whole maneuver list does;
    otherwise (a repeated OFFBOARD message, or any other mode) it only
    records the mode: no maneuver is started, the clock is not read, and
    slot and streaming stay as they were. *)
Theorem state_cb_offboard_gate (msg : State) (c : cfg)
    (Hmanual : mode msg <> "MANUAL") (Hposctl : mode msg <> "POSCTL") :
  let recorded := mkCfg (set_states msg (current_state (self c)) (self c))
                    (env c) (log c ++ [ModeUpdate msg]) in
  state_cb msg c =
    if String.eqb (mode msg) "OFFBOARD"
       && negb (String.eqb (mode (current_state (self c))) "OFFBOARD")
    then execute_all (maneuvers (self c)) recorded
    else (Return tt, recorded).
Proof.
  intros recorded. unfold recorded.
  destruct c as [[slot cur prev q st th mans] w lg].
  apply String.eqb_neq in Hmanual, Hposctl.
  unfold state_cb, update_states, when, bind.
  destruct (String.eqb (mode msg) "OFFBOARD") eqn:Ho;
    destruct (String.eqb (mode cur) "OFFBOARD") eqn:Hc;
    do 5 (cbn -[execute_all]; rewrite ?Hmanual, ?Hposctl, ?Ho, ?Hc);
    reflexivity.
Qed.

Lemma state_cb_offboard_gate_witness :
  mode offboard <> "MANUAL" /\ mode offboard <> "POSCTL" /\
  state_cb offboard
    (mkCfg (set_states offboard posctl (holding [go_south]))
       (mkWorld [0; 1] false []) []) =
  (Return tt,
   mkCfg (set_states offboard offboard (holding [go_south]))
     (mkWorld [0; 1] false []) [ModeUpdate offboard]).
Proof.
  assert (H1 : mode offboard <> "MANUAL") by discriminate.
  assert (H2 : mode offboard <> "POSCTL") by discriminate.
  split; [exact H1|]. split; [exact H2|].
  exact (state_cb_offboard_gate offboard
           (mkCfg (set_states offboard posctl (holding [go_south]))
              (mkWorld [0; 1] false []) []) H1 H2).
Defined.

(** ** What the streaming loop publishes *)

(** X15. Every message published by the streaming loop is the slot that
    was read on some tick on which ROS was not shutting down and streaming
    was enabled, unchanged, and its speed does not exceed [MAX_SPEED]. *)
Theorem run_streaming_safe (ticks : list tick) (msg : Twist)
    (Hin : In msg (fst (run_streaming ticks))) :
  slot_speed msg <= Constants.MAX_SPEED /\
  exists t,
    In t ticks /\ tick_slot t = Some msg /\
    tick_shutdown t = false /\ tick_streaming t = true.
Proof.
  induction ticks as [| t rest IH]; cbn [run_streaming] in Hin; [destruct Hin|].
  destruct (tick_shutdown t) eqn:Hd; cbn [negb andb] in Hin; [destruct Hin|].
  destruct (tick_streaming t) eqn:Hs; [|destruct Hin].
  assert (Hrest : In msg (fst (run_streaming rest)) ->
                  slot_speed msg <= Constants.MAX_SPEED /\
                  exists t0, In t0 (t :: rest) /\ tick_slot t0 = Some msg /\
                             tick_shutdown t0 = false /\ tick_streaming t0 = true).
  { intros H. destruct (IH H) as (Hsp & t0 & Ht0 & Hrem).
    split; [exact Hsp|]. exists t0. split; [right; exact Ht0 | exact Hrem]. }
  destruct (tick_slot t) as [slot |] eqn:Hslot; [|exact (Hrest Hin)].
  destruct (publish_limited slot) as [out | e] eqn:Hp; [|destruct Hin].
  destruct (run_streaming rest) as [outs e]. cbn [fst] in *.
  destruct Hin as [<- | Hin]; [|exact (Hrest Hin)].
  destruct (publish_limited_published slot out Hp) as [-> Hsp].
  split; [exact Hsp|]. exists t. split; [left; reflexivity|].
  split; [exact Hslot|]. split; [exact Hd | exact Hs].
Qed.

Lemma run_streaming_safe_witness :
  let slow := twist_of (1 / 10) 0 0 in
  In slow (fst (run_streaming [mkTick false true (Some slow)])) /\
  slot_speed slow <= Constants.MAX_SPEED.
Proof.
  intros slow.
  assert (Hsp : slot_speed slow = 1 / 10).
  { unfold slot_speed, np.linalg_norm, slow. cbn.
    replace (1 / 10 * (1 / 10) + (0 * 0 + (0 * 0 + 0))) with ((1 / 10) * (1 / 10)) by ring.
    apply sqrt_square. lra. }
  assert (Hin : In slow (fst (run_streaming [mkTick false true (Some slow)]))).
  { cbn [run_streaming tick_shutdown tick_streaming tick_slot negb andb].
    rewrite (publish_limited_within slow)
      by (rewrite Hsp; unfold Constants.MAX_SPEED; lra).
    cbn. left. reflexivity. }
  split; [exact Hin|].
  exact (proj1 (run_streaming_safe _ _ Hin)).
Defined.

(** X16. The loop ends for good on the first tick on which ROS is shutting
    down, streaming is disabled, or the slot holds a speed above
    [MAX_SPEED] (which raises): nothing read on a later tick is ever
    published, even if streaming is enabled and the slot is within the
    limit again, and the thread is no longer running. *)
Theorem run_streaming_ends (pre post : list tick) (t : tick)
    (Hstop : tick_shutdown t = true \/ tick_streaming t = false \/
             exists slot, tick_slot t = Some slot /\
                          Constants.MAX_SPEED < slot_speed slot) :
  fst (run_streaming (pre ++ t :: post)) = fst (run_streaming pre) /\
  snd (run_streaming (pre ++ t :: post)) <> Running.
Proof.
  assert (Ht : fst (run_streaming (t :: post)) = [] /\
               snd (run_streaming (t :: post)) <> Running).
  { cbn [run_streaming].
    destruct (tick_shutdown t) eqn:Hd; cbn [negb andb]; [split; [reflexivity | discriminate]|].
    destruct (tick_streaming t) eqn:Hs; [|split; [reflexivity | discriminate]].
    destruct Hstop as [H | [H | (slot & Hslot & Hover)]]; try discriminate.
    rewrite Hslot, (publish_limited_over slot Hover).
    split; [reflexivity | discriminate]. }
  induction pre as [| p pre IH]; cbn [app]; [exact Ht|].
  cbn [run_streaming].
  destruct (negb (tick_shutdown p) && tick_streaming p);
    [|split; [reflexivity | discriminate]].
  destruct (tick_slot p) as [slot |]; [|exact IH].
  destruct (publish_limited slot) as [out | e];
    [|split; [reflexivity | discriminate]].
  destruct (run_streaming (pre ++ t :: post)) as [outs1 e1].
  destruct (run_streaming pre) as [outs2 e2].
  cbn [fst snd] in *. destruct IH as [-> Hne]. split; [reflexivity | exact Hne].
Qed.

Lemma run_streaming_ends_witness :
  let slow := twist_of (1 / 10) 0 0 in
  let off := mkTick false false (Some slow) in
  let on := mkTick false true (Some slow) in
  (tick_shutdown off = true \/ tick_streaming off = false \/
   exists slot, tick_slot off = Some slot /\ Constants.MAX_SPEED < slot_speed slot) /\
  fst (run_streaming ([] ++ off :: [on; on])) = [] /\
  snd (run_streaming ([] ++ off :: [on; on])) <> Running.
Proof.
  intros slow off on.
  assert (H : tick_shutdown off = true \/ tick_streaming off = false \/
              exists slot, tick_slot off = Some slot /\
                           Constants.MAX_SPEED < slot_speed slot)
    by (right; left; reflexivity).
  split; [exact H|].
  exact (run_streaming_ends [] [on; on] off H).
Defined.

(** ** The command limiter *)

Lemma velocity_command_callback_formula (d : Dispatcher.Dispatcher) (msg : Twist) :
  Dispatcher.velocity_command_callback d msg =
    (d, [twist_of (Rmax (- Dispatcher._VELOCITY_COMMAND_LIMIT)
                     (Rmin Dispatcher._VELOCITY_COMMAND_LIMIT (x (linear msg)))) 0 0]).
Proof.
  assert (HL : 0 < Dispatcher._VELOCITY_COMMAND_LIMIT)
    by (unfold Dispatcher._VELOCITY_COMMAND_LIMIT; lra).
  unfold Dispatcher.velocity_command_callback, gtb.
  destruct (ltb_spec Dispatcher._VELOCITY_COMMAND_LIMIT (x (linear msg))) as [Hhi | Hhi].
  - rewrite Rmin_left by lra. rewrite Rmax_right by lra. reflexivity.
  - rewrite Rmin_right by lra.
    destruct (ltb_spec (x (linear msg)) (- Dispatcher._VELOCITY_COMMAND_LIMIT)) as [Hlo | Hlo].
    + rewrite Rmax_left by lra. reflexivity.
    + rewrite Rmax_right by lra. reflexivity.
Qed.

(** X17. The command limiter is idempotent and order preserving: feeding a
    published command back in publishes it again unchanged; a larger
    forward command never yields a smaller published one; and a command
    whose forward component is within the limit, with no other linear or
    angular component, is published as it is. *)
Theorem velocity_command_callback_idempotent (d : Dispatcher.Dispatcher)
    (msg msg' : Twist) :
  let out := hd new_Twist (snd (Dispatcher.velocity_command_callback d msg)) in
  let out' := hd new_Twist (snd (Dispatcher.velocity_command_callback d msg')) in
  snd (Dispatcher.velocity_command_callback d out) = [out] /\
  (x (linear msg) <= x (linear msg') -> x (linear out) <= x (linear out')) /\
  (forall v, - Dispatcher._VELOCITY_COMMAND_LIMIT <= v <= Dispatcher._VELOCITY_COMMAND_LIMIT ->
             snd (Dispatcher.velocity_command_callback d (twist_of v 0 0)) =
               [twist_of v 0 0]).
Proof.
  intros out out'. unfold out, out'.
  rewrite !velocity_command_callback_formula. cbn [snd hd].
  assert (HL : 0 < Dispatcher._VELOCITY_COMMAND_LIMIT)
    by (unfold Dispatcher._VELOCITY_COMMAND_LIMIT; lra).
  set (L := Dispatcher._VELOCITY_COMMAND_LIMIT) in *.
  split; [|split].
  - cbn [snd twist_of linear x].
    fold L. f_equal. unfold twist_of. f_equal. f_equal.
    assert (H1 : - L <= Rmax (- L) (Rmin L (x (linear msg)))) by apply Rmax_l.
    assert (H2 : Rmax (- L) (Rmin L (x (linear msg))) <= L)
      by (apply Rmax_lub; [lra | apply Rmin_l]).
    rewrite Rmin_right by exact H2. rewrite Rmax_right by exact H1. reflexivity.
  - intros Hle. cbn [twist_of linear x].
    apply Rle_max_compat_l. apply Rle_min_compat_l. exact Hle.
  - intros v [Hlo Hhi]. rewrite velocity_command_callback_formula.
    cbn [snd twist_of linear x]. fold L.
    rewrite Rmin_right by exact Hhi. rewrite Rmax_right by exact Hlo. reflexivity.
Qed.

Lemma velocity_command_callback_idempotent_witness :
  let d := Dispatcher.mkDispatcher None in
  1 <= 2 /\
  x (linear (hd new_Twist (snd (Dispatcher.velocity_command_callback d (twist_of 1 0 0)))))
    <= x (linear (hd new_Twist (snd (Dispatcher.velocity_command_callback d (twist_of 2 0 0))))).
Proof.
  intros d.
  assert (H : 1 <= 2) by lra.
  split; [exact H|].
  exact (proj1 (proj2 (velocity_command_callback_idempotent d
                         (twist_of 1 0 0) (twist_of 2 0 0))) H).
Defined.

(** ** The paths of the main program *)

Lemma sqrt_quarter : sqrt (1 / 4) = 1 / 2.
Proof.
  replace (1 / 4) with ((1 / 2) * (1 / 2)) by lra. apply sqrt_square. lra.
Qed.

Lemma square_le (u b : R) : - b <= u <= b -> u * u <= b * b.
Proof. intros [H1 H2]. nra. Qed.

(** X18. The moustache path of the main program is planar and stays below
    [MAX_SPEED] at every time, so a setpoint holding one of its samples is
    published unchanged by the streaming loop; the lincoln path is planar
    too but starts above [MAX_SPEED]. *)
Theorem main_program_paths (t : R) :
  (exists vx vy,
      moustache t = Ok [vx; vy; 0] /\
      np.linalg_norm [vx; vy; 0] < Constants.MAX_SPEED /\
      publish_limited (twist_of vx vy 0) = Ok (twist_of vx vy 0)) /\
  (exists lx ly, lincoln_path t = Ok [lx; ly; 0]) /\
  (exists lx ly,
      lincoln_path 0 = Ok [lx; ly; 0] /\
      Constants.MAX_SPEED < np.linalg_norm [lx; ly; 0]).
Proof.
  pose proof PI_RGT_0 as Hpi0. pose proof PI_4 as Hpi4.
  pose proof PI2_3_2 as Hpi3.
  split; [|split].
  - eexists. eexists. split; [reflexivity|].
    match goal with
    | |- np.linalg_norm ?v < _ /\ _ =>
        assert (Hn : np.linalg_norm v < Constants.MAX_SPEED)
    end.
    { unfold np.linalg_norm, Constants.MAX_SPEED, np.pi. cbn [np.inner].
      replace (5 / 10) with (sqrt (1 / 4)) by (rewrite sqrt_quarter; lra).
      apply sqrt_lt_1_alt.
      pose proof (SIN_bound (2 * PI * t / 25)) as [Hs1 Hs2].
      pose proof (SIN_bound (8 * PI * t / 25)) as [Hs3 Hs4].
      pose proof (COS_bound (2 * PI * t / 25)) as [Hc1 Hc2].
      set (s1 := sin (2 * PI * t / 25)) in *.
      set (s2 := sin (8 * PI * t / 25)) in *.
      set (c1 := cos (2 * PI * t / 25)) in *.
      assert (Hs : s1 * s1 <= 1 * 1) by (apply square_le; lra).
      assert (Hu : (4 * s2 - c1) * (4 * s2 - c1) <= 5 * 5) by (apply square_le; lra).
      assert (Hp : PI * PI <= 4 * 4) by (apply square_le; lra).
      assert (Hs0 : 0 <= s1 * s1) by (pose proof (Rle_0_sqr s1) as H; exact H).
      assert (Hu0 : 0 <= (4 * s2 - c1) * (4 * s2 - c1))
        by (pose proof (Rle_0_sqr (4 * s2 - c1)) as H; exact H).
      assert (Hp0 : 0 <= PI * PI) by (pose proof (Rle_0_sqr PI) as H; exact H).
      assert (H1 : PI * PI * (s1 * s1) <= 16 * 1)
        by (apply Rmult_le_compat; lra).
      assert (H2 : PI * PI * ((4 * s2 - c1) * (4 * s2 - c1)) <= 16 * 25)
        by (apply Rmult_le_compat; lra).
      assert (H1p : 0 <= PI * PI * (s1 * s1)) by (apply Rmult_le_pos; assumption).
      assert (H2p : 0 <= PI * PI * ((4 * s2 - c1) * (4 * s2 - c1)))
        by (apply Rmult_le_pos; assumption).
      replace (2 * PI / 25 * s1 * (2 * PI / 25 * s1) +
               (2 * PI / 125 * (4 * s2 - c1) * (2 * PI / 125 * (4 * s2 - c1)) +
                (0 * 0 + 0)))
        with (4 / 625 * (PI * PI * (s1 * s1)) +
              4 / 15625 * (PI * PI * ((4 * s2 - c1) * (4 * s2 - c1)))) by field.
      lra. }
    split; [exact Hn|].
    apply publish_limited_within. unfold slot_speed, twist_of. cbn [linear x y z].
    lra.
  - eexists. eexists. reflexivity.
  - eexists. eexists. split; [reflexivity|].
    unfold np.linalg_norm, Constants.MAX_SPEED, np.pi. cbn [np.inner].
    replace (8 * PI * 0 / 25) with 0 by field.
    replace (6 * PI * 0 / 25) with 0 by field.
    rewrite cos_0.
    replace (5 / 10) with (sqrt (1 / 4)) by (rewrite sqrt_quarter; lra).
    apply sqrt_lt_1_alt.
    assert (Hp : 3 * 3 <= PI * PI) by nra.
    replace (4 * PI / 25 * 1 * (4 * PI / 25 * 1) +
             (-9 * PI / 50 * 1 * (-9 * PI / 50 * 1) + (0 * 0 + 0)))
      with (145 / 2500 * (PI * PI)) by field.
    lra.
Qed.

(** ** The slot never commands a rotation *)

Lemma no_angular_lift {A : Type} (r : result A) : preserves no_angular (lift r).
Proof. intros c Hc. destruct r; exact Hc. Qed.

Lemma no_angular_reset : preserves no_angular reset_setpoint.
Proof. intros c _. reflexivity. Qed.

Lemma no_angular_write_sample (man : instance) (vel : vector) :
  preserves no_angular (write_sample man vel).
Proof.
  unfold write_sample.
  apply preserves_bind; [apply no_angular_reset|]. intros _.
  apply preserves_bind; [intros c Hc; exact Hc|]. intros q.
  apply preserves_bind; [apply no_angular_lift|]. intros ref.
  apply preserves_bind; [apply no_angular_lift|]. intros v.
  apply preserves_bind; [apply no_angular_lift|]. intros v0.
  apply preserves_bind; [intros c Hc; exact Hc|]. intros _.
  apply preserves_bind; [apply no_angular_lift|]. intros v1.
  apply preserves_bind; [intros c Hc; exact Hc|]. intros _.
  apply preserves_bind; [apply no_angular_lift|]. intros v2.
  apply preserves_bind; [intros c Hc; exact Hc|]. intros _.
  intros c Hc. exact Hc.
Qed.

Lemma no_angular_deliver_all (ms : list message) :
  preserves no_angular (deliver_all ms).
Proof.
  induction ms as [| m ms IH]; cbn [deliver_all]; [apply preserves_ret|].
  apply preserves_bind; [|intros _; exact IH].
  destruct m; intros c Hc; exact Hc.
Qed.

Lemma no_angular_iteration (man : instance) (g : generator) :
  preserves no_angular (iteration man g).
Proof.
  unfold iteration. apply preserves_bind.
  - intros c Hc. destruct (next man g c) as [r c1] eqn:Hn.
    destruct (next_frame _ _ _ _ _ Hn) as (Hs & _).
    unfold no_angular. cbn [snd]. rewrite Hs. exact Hc.
  - intros [[vel |] g']; [|apply preserves_ret].
    unfold loop_body.
    apply preserves_bind; [apply no_angular_write_sample|]. intros _.
    apply preserves_bind.
    + intros c Hc. unfold sample_boundary.
      destruct (boundaries (env c)); [exact Hc|].
      apply no_angular_deliver_all. exact Hc.
    + intros _ c Hc. unfold abort_test, bind, is_shutdown, gets.
      destruct (_ || _); exact Hc.
Qed.

Lemma no_angular_for_loop (man : instance) (fuel : nat) :
  forall g, preserves no_angular (for_loop fuel man g).
Proof.
  induction fuel as [| fuel IH]; intros g; cbn [for_loop].
  - intros c Hc. exact Hc.
  - apply preserves_bind; [apply no_angular_iteration|].
    intros [g' | |]; [apply IH | apply preserves_ret | apply preserves_ret].
Qed.

Lemma no_angular_execute_all (mans : list instance) :
  preserves no_angular (execute_all mans).
Proof.
  induction mans as [| man rest IH]; cbn [execute_all]; [apply preserves_ret|].
  apply preserves_bind; [|intros _; exact IH].
  intros c Hc. unfold execute_maneuver.
  apply (preserves_bind no_angular
           (for_loop (S (List.length (clock (env c)))) man Created)
           (fun _ => reset_setpoint)); [apply no_angular_for_loop | | exact Hc].
  intros _. apply no_angular_reset.
Qed.

Lemma no_angular_state_cb (msg : State) : preserves no_angular (state_cb msg).
Proof.
  unfold state_cb.
  apply preserves_bind; [intros c Hc; exact Hc|]. intros _.
  apply preserves_bind.
  { apply preserves_gets_bind. intros cur. apply preserves_when.
    apply preserves_gets_bind. intros st. apply preserves_when.
    intros c Hc. exact Hc. }
  intros _. apply preserves_bind.
  { apply preserves_gets_bind. intros cur. apply preserves_when.
    apply preserves_bind.
    - apply preserves_gets_bind. intros st. apply preserves_when.
      intros c Hc. exact Hc.
    - intros _. apply preserves_gets_bind. intros prev. apply preserves_when.
      apply no_angular_reset. }
  intros _. apply preserves_gets_bind. intros cur. apply preserves_when.
  apply preserves_gets_bind. intros prev. apply preserves_when.
  apply preserves_gets_bind. intros mans. apply no_angular_execute_all.
Qed.

(** X19. The controller never commands a rotation: if the angular part of
    the setpoint slot is zero, as it is after construction, it is still
    zero after any sequence of mode messages, however each callback ends
    (returned, raised, or cut short), and also after a pose message; so
    every message the streaming loop publishes from the slot has a zero
    angular part. *)
Theorem slot_never_commands_rotation (msgs : list State) (c0 : cfg)
    (Hinit : no_angular c0) :
  no_angular (run_callbacks msgs c0) /\
  (forall q, no_angular (snd (pose_sub_cb q (run_callbacks msgs c0)))) /\
  (forall msg,
      publish_limited (vel_setpoint_bu_lenu__lenu (self (run_callbacks msgs c0))) =
        Ok msg ->
      angular msg = mkVector3 0 0 0) /\
  (forall mans w lg, no_angular (mkCfg (new_TranslationController mans) w lg)).
Proof.
  assert (H : no_angular (run_callbacks msgs c0)).
  { revert c0 Hinit. induction msgs as [| msg msgs IH]; intros c0 Hinit;
      cbn [run_callbacks fold_left]; [exact Hinit|].
    apply IH. apply no_angular_state_cb. exact Hinit. }
  split; [exact H|]. split; [intros q; exact H|].
  split; [|intros mans w lg; reflexivity].
  intros msg Hp. destruct (publish_limited_published _ _ Hp) as [-> _]. exact H.
Qed.

Lemma slot_never_commands_rotation_witness :
  let c0 := mkCfg (holding [go_south; go_east])
              (mkWorld [0; 0; 1; 1; 2] false [mkBoundary false [StateMsg manual]]) [] in
  no_angular c0 /\ no_angular (run_callbacks [offboard; posctl] c0).
Proof.
  intros c0.
  assert (H : no_angular c0) by reflexivity.
  split; [exact H|].
  exact (proj1 (slot_never_commands_rotation [offboard; posctl] c0 H)).
Defined.
